(** * Urban heat island indicator over Java Island (UHI.js)

    A shallow embedding of the Earth Engine script [UHI.js] and the
    properties its specification states about it.

    The script is a straight-line dataflow program: every [var] of the script
    is a deferred computation over the variables it mentions.  Each [var] is
    embedded below as a definition of the same name that takes exactly the
    variables the source expression reads.

    Conventions of the embedding.
    - Pixel values are exact rationals ([Q]); the platform computes in
      floating point, whose rounding is not modelled.  Equality of values is
      [Qeq] (written [==]).
    - The client's own arithmetic (the subtraction and [toFixed] of the
      statistics callback) is embedded twice: on exact rationals in [JS],
      and on IEEE 754 doubles in [JS64].
    - A raster is a function from grid cells to an optional value; [None] is a
      masked (no-data) pixel.  Masks are binary: the script only produces mask
      values 0 and 1.
    - All region reductions of the script run at [scale: 100]; a geometry is
      given by its footprint on that grid, one entry per intersected cell
      together with the fraction of the cell that the geometry covers.
    - Server-side failures of the platform are values of [result]. *)

From Stdlib Require Import QArith Qround Qabs ZArith List String Ascii Bool Lia Lqa DecimalString.
From Stdlib Require Import Permutation.
From Stdlib Require Import Sorted.
From Stdlib Require Import Qpower.
Import ListNotations.
Open Scope Q_scope.

(** ** Server-side errors *)

Inductive EEError : Type :=
| BandNotFound (band : string)       (* Image.select: pattern did not match any bands *)
| KeyNotFound (key : string)         (* Dictionary.get: dictionary does not contain key *)
| TooManyPixels (found limit : Z)    (* reduceRegion: too many pixels in the region *)
| NullArgument (param : string)      (* a required numeric argument was null *)
| BandMismatch.                      (* images with incompatible band counts *)

Inductive result (A : Type) : Type :=
| Ok (a : A)
| Err (e : EEError).
Arguments Ok {A} a.
Arguments Err {A} e.

Definition bind {A B : Type} (r : result A) (k : A -> result B) : result B :=
  match r with
  | Ok a => k a
  | Err e => Err e
  end.

Notation "x <- r ;; k" := (bind r (fun x => k))
  (at level 61, r at next level, right associativity).

Fixpoint mapM {A B : Type} (f : A -> result B) (l : list A) : result (list B) :=
  match l with
  | [] => Ok []
  | a :: l' => b <- f a ;; bs <- mapM f l' ;; Ok (b :: bs)
  end.

Definition isOk {A : Type} (r : result A) : bool :=
  match r with Ok _ => true | Err _ => false end.

(** ** Rasters, images and geometries (the platform's data model) *)

Definition Pixel : Type := (Z * Z)%type.

Definition pixel_eqb (p q : Pixel) : bool :=
  (Z.eqb (fst p) (fst q) && Z.eqb (snd p) (snd q))%bool.

Definition Raster : Type := Pixel -> option Q.

(** An image is its list of named bands, in band order. *)
Definition Image : Type := list (string * Raster).

(** Footprint of a geometry on the analysis grid: the cells it intersects,
    each with the covered fraction of the cell. *)
Definition Geometry : Type := list (Pixel * Q).

Definition covers (g : Geometry) (p : Pixel) : bool :=
  existsb (fun c => pixel_eqb (fst c) p) g.

Definition intersects (g h : Geometry) : bool :=
  existsb (fun c => covers h (fst c)) g.

Fixpoint lookup {A : Type} (k : string) (l : list (string * A)) : option A :=
  match l with
  | [] => None
  | (k', a) :: l' => if String.eqb k k' then Some a else lookup k l'
  end.

(** The value of band [b] of [img] at pixel [p]; a missing band reads as
    masked. *)
Definition pixelAt (img : Image) (b : string) (p : Pixel) : option Q :=
  match lookup b img with
  | Some r => r p
  | None => None
  end.

Definition Qnonzero (v : Q) : bool := negb (Qeq_bool v 0).

Definition Qgtb (v c : Q) : bool := negb (Qle_bool v c).
Definition Qltb (v c : Q) : bool := negb (Qle_bool c v).

Definition ofBool (b : bool) : Q := if b then 1 else 0.

Module ee.

(** *** Band bookkeeping *)

(** Image.select(name): error when no band has that name.  Platform
    behaviour taken from the platform's reference; the platform is not part
    of the script and was not run. *)
Definition select (name : string) (img : Image) : result Image :=
  match lookup name img with
  | Some r => Ok [(name, r)]
  | None => Err (BandNotFound name)
  end.

(** Image.rename(name) with a single name: the image must have exactly one
    band. *)
Definition rename (name : string) (img : Image) : result Image :=
  match img with
  | [(_, r)] => Ok [(name, r)]
  | _ => Err BandMismatch
  end.

Definition hasBand (name : string) (img : Image) : bool :=
  match lookup name img with Some _ => true | None => false end.

Definition suffixed (name : string) (k : nat) : string :=
  (name ++ "_" ++ NilZero.string_of_uint (Nat.to_uint k))%string.

(** First of [name_k], [name_(k+1)], ... that is not yet a band. *)
Fixpoint freshName (fuel : nat) (name : string) (k : nat) (img : Image) : string :=
  match fuel with
  | O => suffixed name k
  | S fuel' =>
      if hasBand (suffixed name k) img then freshName fuel' name (S k) img
      else suffixed name k
  end.

(** Image.addBands(src) with [overwrite] left at its default [false]: the
    bands of [src] are appended; a band whose name is already taken gets a
    numeric suffix. *)
Fixpoint addBands (img src : Image) : Image :=
  match src with
  | [] => img
  | (name, r) :: src' =>
      let name' :=
        if hasBand name img then freshName (List.length img) name 1 img else name in
      addBands (img ++ [(name', r)]) src'
  end.

(** *** Per-pixel arithmetic and comparisons with a constant *)

Definition mapBands (f : Raster -> Raster) (img : Image) : Image :=
  List.map (fun b => (fst b, f (snd b))) img.

Definition pointwise (f : Q -> Q) (r : Raster) : Raster :=
  fun p => option_map f (r p).

Definition multiply (c : Q) : Image -> Image := mapBands (pointwise (fun v => v * c)).
Definition add (c : Q) : Image -> Image := mapBands (pointwise (fun v => v + c)).
Definition subtract (c : Q) : Image -> Image := mapBands (pointwise (fun v => v - c)).
Definition gt (c : Q) : Image -> Image := mapBands (pointwise (fun v => ofBool (Qgtb v c))).
Definition lt (c : Q) : Image -> Image := mapBands (pointwise (fun v => ofBool (Qltb v c))).

(** Image.not(): 1 where the value is zero, 0 elsewhere; masked pixels stay
    masked. *)
Definition not : Image -> Image :=
  mapBands (pointwise (fun v => ofBool (negb (Qnonzero v)))).

(** *** Binary operations between images

    If one image has a single band it is used against every band of the
    other; otherwise bands are paired in order and the counts must agree.
    Output bands are named after the first image unless only the first has a
    single band. *)

Fixpoint pairBands (f : Raster -> Raster -> Raster) (a b : Image) : Image :=
  match a, b with
  | (n, ra) :: a', (_, rb) :: b' => (n, f ra rb) :: pairBands f a' b'
  | _, _ => []
  end.

Definition binop (f : Raster -> Raster -> Raster) (a b : Image) : result Image :=
  match b with
  | [(_, rb)] => Ok (mapBands (fun ra => f ra rb) a)
  | _ =>
      match a with
      | [(_, ra)] => Ok (mapBands (fun rb => f ra rb) b)
      | _ =>
          if Nat.eqb (List.length a) (List.length b) then Ok (pairBands f a b)
          else Err BandMismatch
      end
  end.

Definition andRaster (ra rb : Raster) : Raster :=
  fun p =>
    match ra p, rb p with
    | Some x, Some y => Some (ofBool (Qnonzero x && Qnonzero y))
    | _, _ => None
    end.

(** Image.and(other): 1 iff both values are non-zero; masked where either
    input is masked. *)
Definition and (a b : Image) : result Image := binop andRaster a b.

Definition updateMaskRaster (r m : Raster) : Raster :=
  fun p =>
    match m p with
    | Some x => if Qnonzero x then r p else None
    | None => None
    end.

(** Image.updateMask(mask): a pixel stays valid only where the mask image is
    valid and non-zero. *)
Definition updateMask (img mask : Image) : result Image :=
  binop updateMaskRaster img mask.

(** Image.selfMask(): updateMask with the image itself. *)
Definition selfMask (img : Image) : Image :=
  mapBands (fun r => updateMaskRaster r r) img.

Definition whereRaster (value : Q) (input test : Raster) : Raster :=
  fun p =>
    match input p with
    | None => None
    | Some v =>
        match test p with
        | Some t => if Qnonzero t then Some value else Some v
        | None => Some v
        end
    end.

(** Image.where(test, value) with a constant value: where [test] is
    non-zero the output is [value]; where [test] is zero or masked the input
    pixel is kept; a masked input pixel stays masked. *)
Definition where_ (img test : Image) (value : Q) : result Image :=
  binop (whereRaster value) img test.

(** Image.clip(geometry): data not covered by the geometry is masked. *)
Definition clip (g : Geometry) : Image -> Image :=
  mapBands (fun r p => if covers g p then r p else None).

End ee.

(** ** Reducers *)

Fixpoint Qsum (l : list Q) : Q :=
  match l with
  | [] => 0
  | x :: l' => x + Qsum l'
  end.

Definition Qlen (l : list Q) : Q := inject_Z (Z.of_nat (List.length l)).

(** ee.Reducer.mean() over a list of inputs: null on no input. *)
Definition meanReducer (vs : list Q) : option Q :=
  match vs with
  | [] => None
  | _ :: _ => Some (Qsum vs / Qlen vs)
  end.

Fixpoint insertSorted (x : Q) (l : list Q) : list Q :=
  match l with
  | [] => [x]
  | y :: l' => if Qle_bool x y then x :: l else y :: insertSorted x l'
  end.

Definition sortQ (l : list Q) : list Q := fold_right insertSorted [] l.

(** ee.Reducer.median() over a list of inputs: the middle value of the sorted
    inputs, the mean of the two middle values for an even count, null on no
    input. *)
Definition medianReducer (vs : list Q) : option Q :=
  match vs with
  | [] => None
  | _ :: _ =>
      let s := sortQ vs in
      let n := List.length s in
      if Nat.even n
      then Some ((nth (n / 2 - 1) s 0 + nth (n / 2) s 0) / 2)
      else Some (nth (n / 2) s 0)
  end.

(** ** Scenes and image collections *)

(** Calendar date (year, month, day), ordered lexicographically. *)
Definition Date : Type := (Z * Z * Z)%type.

Definition date_ltb (a b : Date) : bool :=
  let '(ya, ma, da) := a in
  let '(yb, mb, db) := b in
  ((ya <? yb) || ((ya =? yb) && ((ma <? mb) || ((ma =? mb) && (da <? db)))))%Z%bool.

Definition date_leb (a b : Date) : bool := negb (date_ltb b a).

(** An archive image: its bands and the metadata the script filters on. *)
Record Scene : Type := mkScene {
  bands : Image;
  CLOUD_COVER : Q;
  acquired : Date;
  footprint : Geometry
}.

Module ImageCollection.

Definition merge (a b : list Scene) : list Scene := a ++ b.

Definition filterBounds (g : Geometry) (col : list Scene) : list Scene :=
  filter (fun s => intersects (footprint s) g) col.

(** filterDate(start, end): start inclusive, end exclusive. *)
Definition filterDate (start stop : Date) (col : list Scene) : list Scene :=
  filter (fun s => date_leb start (acquired s) && date_ltb (acquired s) stop)%bool col.

(** filter(ee.Filter.lt('CLOUD_COVER', c)) *)
Definition filterCloudCoverLt (c : Q) (col : list Scene) : list Scene :=
  filter (fun s => Qltb (CLOUD_COVER s) c) col.

(** The unmasked values of band [b] at pixel [p] across the collection. *)
Definition valuesAt (b : string) (col : list Image) (p : Pixel) : list Q :=
  flat_map (fun img => match pixelAt img b p with Some v => [v] | None => [] end) col.

(** Reducing a collection applies the reducer per band and per pixel to the
    unmasked values across the images; the bands are those of the first
    image, and an empty collection reduces to an image without bands.
    Platform behaviour taken from the platform's reference; the platform is
    not part of the script and was not run.  The properties of the empty
    scene set below are also stated for the other answer the platform could
    give for a statistic without input, a null. *)
Definition reduce (red : list Q -> option Q) (col : list Image) : Image :=
  match col with
  | [] => []
  | first :: _ => List.map (fun b => (fst b, fun p => red (valuesAt (fst b) col p))) first
  end.

Definition mean : list Image -> Image := reduce meanReducer.
Definition median : list Image -> Image := reduce medianReducer.

Definition select (name : string) (col : list Image) : result (list Image) :=
  mapM (ee.select name) col.

End ImageCollection.

Module eeImage.

(** Modelled from the spec: the per-pixel rule of the platform's
    normalizedDifference, which is not part of the script.  The value is
    (first - second) / (first + second); a pixel whose denominator is zero
    is no-data.  The platform also masks a pixel when either input value is
    negative. *)
Definition ndRaster (a b : Raster) : Raster :=
  fun p =>
    match a p, b p with
    | Some x, Some y =>
        if (Qltb x 0 || Qltb y 0)%bool then None
        else if Qeq_bool (x + y) 0 then None
        else Some ((x - y) / (x + y))
    | _, _ => None
    end.

(** Image.normalizedDifference([b1, b2]): both bands must exist; the output
    band is named 'nd'. *)
Definition normalizedDifference (b1 b2 : string) (img : Image) : result Image :=
  match lookup b1 img with
  | None => Err (BandNotFound b1)
  | Some r1 =>
      match lookup b2 img with
      | None => Err (BandNotFound b2)
      | Some r2 => Ok [("nd"%string, ndRaster r1 r2)]
      end
  end.

(** *** Region reduction *)

Inductive Reducer : Type := Reducer_mean.

Record ReduceRegionArgs : Type := mkArgs {
  reducer : Reducer;
  geometry : Geometry;
  scale : Q;
  maxPixels : Z
}.

(** One pass over the cells of the region: running weighted sum and running
    weight.  A cell contributes when its pixel is unmasked and the region
    covers a positive fraction of it. *)
Fixpoint accumulate (r : Raster) (cells : Geometry) (acc : Q * Q) : Q * Q :=
  match cells with
  | [] => acc
  | (p, w) :: cells' =>
      match r p with
      | Some v =>
          if Qltb 0 w
          then accumulate r cells' (fst acc + w * v, snd acc + w)
          else accumulate r cells' acc
      | None => accumulate r cells' acc
      end
  end.

Definition weightedMean (r : Raster) (cells : Geometry) : option Q :=
  let acc := accumulate r cells (0, 0) in
  if Qnonzero (snd acc) then Some (fst acc / snd acc) else None.

Definition Dictionary : Type := list (string * option Q).

(** Modelled from the spec: the platform's reduceRegion with the mean
    reducer, which is not part of the script.  The result holds, per band,
    the area-weighted arithmetic mean of the valid pixels intersecting the
    geometry (null when there is none).  When the region holds more pixels
    than [maxPixels] the reduction fails with an aggregation-limit error;
    the script never sets [bestEffort], so nothing is subsampled. *)
Definition reduceRegion (args : ReduceRegionArgs) (img : Image) : result Dictionary :=
  let n := Z.of_nat (List.length (geometry args)) in
  if (maxPixels args <? n)%Z then Err (TooManyPixels n (maxPixels args))
  else Ok (List.map (fun b => (fst b, weightedMean (snd b) (geometry args))) img).

(** Dictionary.get(key): an absent key is an error.  Platform behaviour
    taken from the platform's reference; not run. *)
Definition get (key : string) (d : Dictionary) : result (option Q) :=
  match lookup key d with
  | Some v => Ok v
  | None => Err (KeyNotFound key)
  end.

(** ee.Number(value) used as the operand of Image.subtract: null is
    rejected. *)
Definition Number (param : string) (v : option Q) : result Q :=
  match v with
  | Some q => Ok q
  | None => Err (NullArgument param)
  end.

End eeImage.

(** ** The client side: JavaScript values, number formatting, the panel *)

Module JS.

Inductive Value : Type :=
| JNumber (q : Q)
| JNaN
| JNull
| JUndefined.

(** ToNumber on the values above; [None] stands for NaN. *)
Definition toNumber (v : Value) : option Q :=
  match v with
  | JNumber q => Some q
  | JNaN => None
  | JNull => Some 0
  | JUndefined => None
  end.

(** The binary [-] operator, on exact rationals: the difference is not
    rounded here.  [JS64.minus] below is the operator on doubles, which
    rounds the difference to the nearest double. *)
Definition minus (a b : Value) : Value :=
  match toNumber a, toNumber b with
  | Some x, Some y => JNumber (x - y)
  | _, _ => JNaN
  end.

Fixpoint zeros (n : nat) : string :=
  match n with
  | O => EmptyString
  | S n' => String "0"%char (zeros n')
  end.

(** The decimal digits of [n], padded on the left to at least [k + 1]
    digits, with a point before the last [k]. *)
Definition fixedDigits (k : nat) (n : Z) : string :=
  let ds := NilZero.string_of_uint (N.to_uint (Z.to_N n)) in
  let ds := (zeros (S k - String.length ds) ++ ds)%string in
  let i := (String.length ds - k)%nat in
  match k with
  | O => ds
  | S _ => (substring 0 i ds ++ "." ++ substring i k ds)%string
  end.

(** Number.prototype.toFixed(k) on a finite number below 10^21 in
    magnitude: the sign is split off, then the magnitude is rounded to the
    nearest multiple of 10^-k, the larger one on a tie.  From 10^21 on the
    method switches to exponent notation, which this function does not
    produce: [JS64.toFixed] below returns no string there. *)
Definition toFixedQ (k : nat) (x : Q) : string :=
  let m := Qabs x in
  let n := Qfloor (m * inject_Z (10 ^ Z.of_nat k) + (1 # 2)) in
  let body := fixedDigits k n in
  if Qltb x 0 then String "-"%char body else body.

Inductive Exn : Type := TypeError (msg : string).

(** [v.toFixed(k)]: the method call fails on null and undefined; NaN
    prints as "NaN". *)
Definition toFixed (k : nat) (v : Value) : Exn + string :=
  match v with
  | JNumber q => inr (toFixedQ k q)
  | JNaN => inr "NaN"%string
  | JNull => inl (TypeError "Cannot read properties of null (reading 'toFixed')")
  | JUndefined => inl (TypeError "Cannot read properties of undefined (reading 'toFixed')")
  end.

(** ComputedObject.evaluate(callback): the callback's first argument is the
    computed value, [undefined] when the computation failed. *)
Definition evaluated (r : result (option Q)) : Value :=
  match r with
  | Ok (Some q) => JNumber q
  | Ok None => JNull
  | Err _ => JUndefined
  end.

End JS.

Module UI.

(** Client code that adds labels to a panel and may throw: the panel's
    widget list is threaded through, an exception stops the rest. *)
Definition M (A : Type) : Type := list string -> list string * (JS.Exn + A).

Definition ret {A : Type} (a : A) : M A := fun panel => (panel, inr a).

Definition bind {A B : Type} (m : M A) (k : A -> M B) : M B :=
  fun panel =>
    match m panel with
    | (panel', inr a) => k a panel'
    | (panel', inl e) => (panel', inl e)
    end.

Definition lift {A : Type} (r : JS.Exn + A) : M A := fun panel => (panel, r).

(** statsPanel.add(ui.Label(value)): the label text is what is recorded. *)
Definition add (value : string) : M unit := fun panel => (panel ++ [value], inr tt).

End UI.

Notation "'let*' x ':=' m 'in' k" := (UI.bind m (fun x => k))
  (at level 10, x name, m at level 100, k at level 200).
Notation "m '>>' k" := (UI.bind m (fun _ => k))
  (at level 62, right associativity).

(** ** The script *)

Module UHI.

Import ee eeImage.

Definition startDate : string := "2024-06-01".
Definition endDate : string := "2024-09-30".

Definition digitsZ (s : string) : Z :=
  match NilZero.uint_of_string s with
  | Some u => Z.of_uint u
  | None => 0%Z
  end.

(** The calendar date denoted by a 'YYYY-MM-DD' string. *)
Definition dateOf (s : string) : Date :=
  (digitsZ (substring 0 4 s), digitsZ (substring 5 2 s), digitsZ (substring 8 2 s)).

(** [landsat]: both archives merged, then filtered by bounds, date and cloud
    cover. *)
Definition landsat (LC08 LC09 : list Scene) (javaBounds : Geometry) : list Scene :=
  ImageCollection.filterCloudCoverLt 20
    (ImageCollection.filterDate (dateOf startDate) (dateOf endDate)
       (ImageCollection.filterBounds javaBounds
          (ImageCollection.merge LC08 LC09))).

Definition calculateLST (image : Image) : result Image :=
  st <- select "ST_B10" image ;;
  lst <- rename "LST" (subtract 273.15 (add 149.0 (multiply 0.00341802 st))) ;;
  Ok (addBands image lst).

Definition lstCollection (landsat : list Scene) : result (list Image) :=
  mapM calculateLST (List.map bands landsat).

Definition lstMean (lstCollection : list Image) (javaBounds : Geometry) : result Image :=
  col <- ImageCollection.select "LST" lstCollection ;;
  Ok (clip javaBounds (ImageCollection.mean col)).

Definition median (landsat : list Scene) : Image :=
  ImageCollection.median (List.map bands landsat).

Definition ndvi (median : Image) : result Image :=
  nd <- normalizedDifference "SR_B5" "SR_B4" median ;;
  rename "NDVI" nd.

Definition ndbi (median : Image) : result Image :=
  nd <- normalizedDifference "SR_B6" "SR_B5" median ;;
  rename "NDBI" nd.

Definition urbanMask (ndbi ndvi : Image) : result Image :=
  m <- and (gt 0.1 ndbi) (lt 0.2 ndvi) ;;
  Ok (selfMask m).

Definition ruralMask (ndvi ndbi : Image) : result Image :=
  and (gt 0.3 ndvi) (lt (-0.1) ndbi).

Definition regionArgs (g : Geometry) : ReduceRegionArgs :=
  {| reducer := Reducer_mean; geometry := g; scale := 100; maxPixels := 10 ^ 13 |}.

Definition urbanLST (lstMean urbanMask : Image) : result Image :=
  updateMask lstMean urbanMask.

Definition urbanTemp (urbanLST : Image) (javaBounds : Geometry) : result Dictionary :=
  reduceRegion (regionArgs javaBounds) urbanLST.

Definition ruralLST (lstMean ruralMask : Image) : result Image :=
  updateMask lstMean ruralMask.

Definition ruralTemp (ruralLST : Image) (javaBounds : Geometry) : result Dictionary :=
  reduceRegion (regionArgs javaBounds) ruralLST.

Definition uhiIntensity (lstMean urbanMask : Image) (ruralTemp : Dictionary)
  : result Image :=
  zeroed <- where_ lstMean (not urbanMask) 0 ;;
  r <- get "LST" ruralTemp ;;
  n <- Number "image2" r ;;
  masked <- updateMask (subtract n zeroed) urbanMask ;;
  rename "UHI_Intensity" masked.

Record City : Type := mkCity {
  name : string;
  coords : Q * Q
}.

Definition cities : list City :=
  [ mkCity "Jakarta" (106.8456, -6.2088);
    mkCity "Surabaya" (112.7521, -7.2575);
    mkCity "Bandung" (107.6191, -6.9175);
    mkCity "Semarang" (110.4203, -6.9932);
    mkCity "Yogyakarta" (110.3695, -7.7956) ].

(** [cityLST] for one city, given the footprint of its buffer. *)
Definition cityLST (lstMean : Image) (buffer : Geometry) : result Dictionary :=
  reduceRegion (regionArgs buffer) lstMean.

(** The body of [cities.forEach]: what is printed for each city.
    [pointBuffer coords radius] is the footprint of
    [ee.Geometry.Point(coords).buffer(radius)]. *)
Definition citiesPrinted (pointBuffer : Q * Q -> Q -> Geometry) (lstMean : result Image)
  : list (string * result (option Q)) :=
  List.map
    (fun city =>
       let buffer := pointBuffer (coords city) 10000 in
       ((name city ++ " Average LST (°C):")%string,
        img <- lstMean ;; d <- cityLST img buffer ;; get "LST" d))
    cities.

Definition separator : string := "━━━━━━━━━━━━━━━".

(** [var uhi = (uTemp - rTemp).toFixed(2)] *)
Definition uhi (uTemp rTemp : JS.Value) : JS.Exn + string :=
  JS.toFixed 2 (JS.minus uTemp rTemp).

(** The nested [evaluate] callbacks that fill the statistics panel. *)
Definition statsCallback (uTemp rTemp : JS.Value) : UI.M unit :=
  let* uhi := UI.lift (uhi uTemp rTemp) in
  UI.add "Analysis Period:" >>
  UI.add (startDate ++ " to " ++ endDate) >>
  UI.add separator >>
  UI.add "Average Urban LST:" >>
  (let* u := UI.lift (JS.toFixed 2 uTemp) in
   UI.add (u ++ " °C") >>
   UI.add "Average Rural LST:" >>
   (let* r := UI.lift (JS.toFixed 2 rTemp) in
    UI.add (r ++ " °C") >>
    UI.add separator >>
    UI.add "UHI Intensity:" >>
    UI.add (uhi ++ " °C") >>
    UI.add ("Urban areas are " ++ uhi ++ "°C warmer than rural areas"))).

(** The panel after [statsPanel.add(title)] and the callbacks have run. *)
Definition statsPanel (urbanTempLST ruralTempLST : result (option Q))
  : list string * (JS.Exn + unit) :=
  statsCallback (JS.evaluated urbanTempLST) (JS.evaluated ruralTempLST)
    ["URBAN HEAT ISLAND STATISTICS"%string].

End UHI.

(** ** The script run on its inputs

    The inputs are the two archives, the footprint of the Java boundary and
    the footprints of point buffers.  Every definition below is the variable
    of the same name, with the variables it reads supplied by the
    definitions above it. *)

Module Run.
Section Inputs.

Variables LC08 LC09 : list Scene.
Variable javaBounds : Geometry.
Variable pointBuffer : Q * Q -> Q -> Geometry.

Definition landsat : list Scene := UHI.landsat LC08 LC09 javaBounds.

Definition lstCollection : result (list Image) := UHI.lstCollection landsat.

Definition lstMean : result Image :=
  col <- lstCollection ;; UHI.lstMean col javaBounds.

Definition median : Image := UHI.median landsat.

Definition ndvi : result Image := UHI.ndvi median.
Definition ndbi : result Image := UHI.ndbi median.

Definition urbanMask : result Image :=
  b <- ndbi ;; v <- ndvi ;; UHI.urbanMask b v.

Definition ruralMask : result Image :=
  v <- ndvi ;; b <- ndbi ;; UHI.ruralMask v b.

Definition urbanLST : result Image :=
  l <- lstMean ;; m <- urbanMask ;; UHI.urbanLST l m.

Definition urbanTemp : result eeImage.Dictionary :=
  u <- urbanLST ;; UHI.urbanTemp u javaBounds.

Definition ruralLST : result Image :=
  l <- lstMean ;; m <- ruralMask ;; UHI.ruralLST l m.

Definition ruralTemp : result eeImage.Dictionary :=
  r <- ruralLST ;; UHI.ruralTemp r javaBounds.

Definition uhiIntensity : result Image :=
  l <- lstMean ;; m <- urbanMask ;; d <- ruralTemp ;; UHI.uhiIntensity l m d.

(** [urbanTemp.get('LST')] and [ruralTemp.get('LST')] *)
Definition urbanTempLST : result (option Q) := d <- urbanTemp ;; eeImage.get "LST" d.
Definition ruralTempLST : result (option Q) := d <- ruralTemp ;; eeImage.get "LST" d.

Definition citiesPrinted : list (string * result (option Q)) :=
  UHI.citiesPrinted pointBuffer lstMean.

Definition statsPanel : list string * (JS.Exn + unit) :=
  UHI.statsPanel urbanTempLST ruralTempLST.

End Inputs.
End Run.

(** ** Notions used to state the properties *)

(** A pixel belongs to a (single-band) mask image when the mask is valid and
    non-zero there: exactly the pixels that [updateMask] keeps. *)
Definition keeps (mask : Image) (p : Pixel) : bool :=
  match mask with
  | [(_, m)] => match m p with Some x => Qnonzero x | None => false end
  | _ => false
  end.

(** The pixel of a possibly failed image; a failed image has no pixel. *)
Definition pixelOf (img : result Image) (b : string) (p : Pixel) : option Q :=
  match img with
  | Ok i => pixelAt i b p
  | Err _ => None
  end.

(** Equality of optional values up to [Qeq]. *)
Definition oQeq (a b : option Q) : Prop :=
  match a, b with
  | Some x, Some y => x == y
  | None, None => True
  | _, _ => False
  end.

(** The contributions of a region to a mean of raster [r]: weight and value
    of every cell whose pixel is valid and of which the region covers a
    positive fraction. *)
Definition validCells (r : Raster) (cells : Geometry) : list (Q * Q) :=
  flat_map
    (fun c =>
       match r (fst c) with
       | Some v => if Qltb 0 (snd c) then [(snd c, v)] else []
       | None => []
       end)
    cells.

Definition wsum (l : list (Q * Q)) : Q := Qsum (List.map (fun wv => fst wv * snd wv) l).
Definition wtot (l : list (Q * Q)) : Q := Qsum (List.map fst l).

(** Area-weighted arithmetic mean of weighted values; undefined on none. *)
Definition areaWeightedMean (l : list (Q * Q)) : option Q :=
  match l with
  | [] => None
  | _ :: _ => Some (wsum l / wtot l)
  end.

Definition restrict (raster : Raster) (mask : Image) : Raster :=
  fun p => if keeps mask p then raster p else None.

(** The specification's RegionMean(raster, mask, geometry, scale), in its own
    words: restrict the raster to the mask, then take the area-weighted
    arithmetic mean of the valid pixels intersecting the geometry.  The
    geometry is given by its footprint at the sampling scale. *)
Definition RegionMean (raster : Raster) (mask : Image) (geometry : Geometry) : option Q :=
  areaWeightedMean (validCells (restrict raster mask) geometry).

(** [a] is [b] moved by the constant [c]: failures and nulls are kept, a
    number is [c] larger. *)
Definition shiftedBy (c : Q) (b a : result (option Q)) : Prop :=
  match b, a with
  | Ok (Some x), Ok (Some y) => y == x + c
  | Ok None, Ok None => True
  | Err e, Err e' => e = e'
  | _, _ => False
  end.

(** [urbanTemp.get('LST')] and [ruralTemp.get('LST')] as functions of the LST
    composite, the mask and the boundary they are computed from. *)
Definition urbanMeanOf (lstMean urbanMask : Image) (javaBounds : Geometry)
  : result (option Q) :=
  img <- UHI.urbanLST lstMean urbanMask ;;
  d <- UHI.urbanTemp img javaBounds ;;
  eeImage.get "LST" d.

Definition ruralMeanOf (lstMean ruralMask : Image) (javaBounds : Geometry)
  : result (option Q) :=
  img <- UHI.ruralLST lstMean ruralMask ;;
  d <- UHI.ruralTemp img javaBounds ;;
  eeImage.get "LST" d.

(** The UHI value shown on the panel: the label added after 'UHI Intensity:',
    if the callbacks got that far. *)
Definition reportedUHI (panel : list string * (JS.Exn + unit)) : option string :=
  nth_error (fst panel) 10.

(** The specification's per-scene formula
    [thermal_band * scale_factor + offset - 273.15]. *)
Definition decodeLST (dn : Q) : Q := dn * 0.00341802 + 149.0 - 273.15.

(** A scene with the band layout of the Landsat Collection 2 Level 2
    archives, as far as the script reads it: the thermal band and the three
    reflectance bands exist, and no band is called 'LST' yet. *)
Definition wellFormed (s : Scene) : bool :=
  (ee.hasBand "ST_B10" (bands s) && ee.hasBand "SR_B4" (bands s) &&
   ee.hasBand "SR_B5" (bands s) && ee.hasBand "SR_B6" (bands s) &&
   negb (ee.hasBand "LST" (bands s)))%bool.

(** The per-scene LST values that are valid at a pixel. *)
Definition sceneLSTs (scenes : list Scene) (p : Pixel) : list Q :=
  flat_map
    (fun s =>
       match pixelAt (bands s) "ST_B10" p with
       | Some dn => [decodeLST dn]
       | None => []
       end)
    scenes.

(** The values of a band that are valid at a pixel, across the scenes. *)
Definition bandValues (b : string) (scenes : list Scene) (p : Pixel) : list Q :=
  ImageCollection.valuesAt b (List.map bands scenes) p.

(** The LST raster [calculateLST] derives from a thermal raster. *)
Definition lstRasterOf (r : Raster) : Raster :=
  ee.pointwise (fun v => v - 273.15)
    (ee.pointwise (fun v => v + 149.0)
       (ee.pointwise (fun v => v * 0.00341802) r)).

Definition sceneLSTRaster (s : Scene) : Raster :=
  match lookup "ST_B10" (bands s) with
  | Some r => lstRasterOf r
  | None => fun _ => None
  end.

(** *** A synthetic four-pixel scene

    Pixels 0 and 1 are built-up (NDBI = 0.2, NDVI = 0) with surface
    temperatures 30 and 34; pixels 2 and 3 are vegetated (NDVI = 0.6,
    NDBI = -1/3) with temperatures 24 and 26. *)

Definition px (i : Z) : Pixel := (i, 0%Z).

Definition row (f : Z -> option Q) : Raster := fun p => f (fst p).

(** The thermal digital number that decodes to the temperature [t]. *)
Definition thermalDN (t : Q) : Q := (t + 273.15 - 149.0) / 0.00341802.

Definition syntheticScene : Scene :=
  mkScene
    [ ("SR_B4"%string, row (fun i => if (i <? 2)%Z then Some 40 else Some 20));
      ("SR_B5"%string, row (fun i => if (i <? 2)%Z then Some 40 else Some 80));
      ("SR_B6"%string, row (fun i => if (i <? 2)%Z then Some 60 else Some 40));
      ("ST_B10"%string,
        row (fun i =>
               Some (thermalDN
                       (match i with
                        | 0%Z => 30
                        | 1%Z => 34
                        | 2%Z => 24
                        | _ => 26
                        end)))) ]
    5 (2024, 7, 1)%Z [(px 0, 1)].

Definition syntheticBounds : Geometry := [(px 0, 1); (px 1, 1); (px 2, 1); (px 3, 1)].

(** *** Three scenes over one pixel, to tell mean from median compositing

    Temperatures 20, 22 and 36 (mean 26, median 22); NIR 10, 20 and 90 (mean
    40, median 20); Red 10 and SWIR 30 throughout. *)

Definition onePixelScene (t nir : Q) (day : Z) : Scene :=
  mkScene
    [ ("SR_B4"%string, row (fun _ => Some 10));
      ("SR_B5"%string, row (fun _ => Some nir));
      ("SR_B6"%string, row (fun _ => Some 30));
      ("ST_B10"%string, row (fun _ => Some (thermalDN t))) ]
    0 (2024, 7, day)%Z [(px 0, 1)].

Definition threeScenes : list Scene :=
  [onePixelScene 20 10 1; onePixelScene 22 20 2; onePixelScene 36 90 3].

(** A buffer footprint that straddles the synthetic boundary: two cells
    inside (one of them half covered) and one outside. *)
Definition straddlingBuffer : Geometry := [(px 1, 1); (px 2, 1 # 2); (px 7, 1)].

(** A footprint with one cell more than the script's pixel cap. *)
Definition oversizedBounds : Geometry :=
  List.repeat (px 0, 1) (Z.to_nat (10 ^ 13 + 1)).

(** ** The boundary collection, the analysis window and the scene count *)

Module Boundary.

(** A feature of the administrative-boundary table, with the two properties
    the script filters on. *)
Record Feature : Type := mkFeature {
  ADM0_NAME : string;
  ADM1_NAME : string;
  shape : Geometry
}.

Definition provinces : list string :=
  [ "Jawa Barat"; "Jawa Tengah"; "Jawa Timur"; "Banten"; "Jakarta Raya"; "Yogyakarta" ]%string.

(** ee.Filter.inList(property, values) on one property value. *)
Definition inList (values : list string) (v : string) : bool :=
  existsb (String.eqb v) values.

(** [java]: the table filtered by country, then by province name. *)
Definition java (table : list Feature) : list Feature :=
  filter (fun f => inList provinces (ADM1_NAME f))
    (filter (fun f => String.eqb (ADM0_NAME f) "Indonesia") table).

End Boundary.

(** A date lies in the analysis period of the script. *)
Definition inWindow (d : Date) : bool :=
  (date_leb (UHI.dateOf UHI.startDate) d && date_ltb d (UHI.dateOf UHI.endDate))%bool.

(** [landsat.size()], the count printed at the end of the script. *)
Definition landsatSize (landsat : list Scene) : nat := List.length landsat.

(** ** What a median is, without sorting

    [m] is a median of [vs] when at least half of the values are at most [m]
    and at least half of them are at least [m]. *)

Definition countLe (vs : list Q) (m : Q) : nat :=
  List.length (filter (fun v => Qle_bool v m) vs).

Definition countGe (vs : list Q) (m : Q) : nat :=
  List.length (filter (fun v => Qle_bool m v) vs).

Definition isMedian (vs : list Q) (m : Q) : Prop :=
  (List.length vs <= 2 * countLe vs m)%nat /\ (List.length vs <= 2 * countGe vs m)%nat.

(** The three one-pixel scenes in an order in which neither the
    temperatures (36, 20, 22) nor the NIR values (90, 10, 20) are sorted. *)
Definition shuffledScenes : list Scene :=
  [onePixelScene 36 90 1; onePixelScene 20 10 2; onePixelScene 22 20 3].

(** The panel reports its statistics when the callbacks ran to completion,
    so that every heading is followed by a value label. *)
Definition reportsStatistics (panel : list string * (JS.Exn + unit)) : Prop :=
  snd panel = inr tt.

(** ** The client's numbers as IEEE 754 doubles

    The definitions of [JS] above carry exact rationals.  A JavaScript number
    is a binary64 double: a number received from the server is the double
    nearest to it, and [-] returns the double nearest to the exact
    difference of its operands (round to nearest, ties to even).  A result
    that is not a finite double, and [toFixed] on a magnitude of 10^21 or
    more (where it switches to exponent notation), are outside this model:
    the functions below then return [None]. *)

Module JS64.

(** The exponent [k] with 2^k <= a < 2^(k+1), for a positive [a]. *)
Definition floorLog2 (a : Q) : Z :=
  let k := (Z.log2 (Qnum a) - Z.log2 (Zpos (Qden a)))%Z in
  if Qle_bool (2 ^ k) a then k else (k - 1)%Z.

(** The integer nearest to [x], the even one on a tie. *)
Definition roundHalfEven (x : Q) : Z :=
  let f := Qfloor x in
  let r := x - inject_Z f in
  if Qltb r (1 # 2) then f
  else if Qltb (1 # 2) r then (f + 1)%Z
  else if Z.even f then f else (f + 1)%Z.

(** The double nearest to [q]: 53 significant bits, the spacing of the
    subnormal range below 2^-1022, no finite double from 2^1024 on. *)
Definition toDouble (q : Q) : option Q :=
  if Qeq_bool q 0 then Some 0
  else
    let a := Qabs q in
    let e := Z.max (floorLog2 a - 52) (-1074) in
    let d := inject_Z (roundHalfEven (a / 2 ^ e)) * 2 ^ e in
    if Qle_bool (2 ^ 1024) d then None
    else Some (if Qltb q 0 then - d else d).

(** The callback's argument, as the double the client holds. *)
Definition evaluated (r : result (option Q)) : option JS.Value :=
  match r with
  | Ok (Some q) => option_map JS.JNumber (toDouble q)
  | Ok None => Some JS.JNull
  | Err _ => Some JS.JUndefined
  end.

(** The binary [-] on doubles. *)
Definition minus (a b : JS.Value) : option JS.Value :=
  match JS.toNumber a, JS.toNumber b with
  | Some x, Some y => option_map JS.JNumber (toDouble (x - y))
  | _, _ => Some JS.JNaN
  end.

(** [v.toFixed(k)] on a double: the digits are those of the exact value of
    the double. *)
Definition toFixed (k : nat) (v : JS.Value) : option (JS.Exn + string) :=
  match v with
  | JS.JNumber q =>
      if Qle_bool (inject_Z (10 ^ 21)) (Qabs q) then None
      else Some (inr (JS.toFixedQ k q))
  | _ => Some (JS.toFixed k v)
  end.

(** [var uhi = (uTemp - rTemp).toFixed(2)] on doubles. *)
Definition uhi (uTemp rTemp : JS.Value) : option (JS.Exn + string) :=
  match minus uTemp rTemp with
  | Some d => toFixed 2 d
  | None => None
  end.

End JS64.

(** [uhi] as the client computes it from the two region means. *)
Definition uhi64Of (urban rural : result (option Q)) : option (JS.Exn + string) :=
  match JS64.evaluated urban, JS64.evaluated rural with
  | Some uTemp, Some rTemp => JS64.uhi uTemp rTemp
  | _, _ => None
  end.

(** The number [uTemp - rTemp] as the client holds it, before [toFixed]. *)
Definition doubleDifference (urban rural : result (option Q)) : option Q :=
  match JS64.evaluated urban, JS64.evaluated rural with
  | Some uTemp, Some rTemp =>
      match JS64.minus uTemp rTemp with
      | Some (JS.JNumber d) => Some d
      | _ => None
      end
  | _, _ => None
  end.

(** The integer that [toFixed(k)] prints: the number in units of 10^-k,
    rounded as [JS.toFixedQ] rounds it, with its sign. *)
Definition fixedUnits (k : nat) (x : Q) : Z :=
  let n := Qfloor (Qabs x * inject_Z (10 ^ Z.of_nat k) + (1 # 2)) in
  if Qltb x 0 then (- n)%Z else n.

(** Half the relative spacing of the doubles, and half the spacing of the
    subnormal ones. *)
Definition halfUlp : Q := 2 ^ (-53).
Definition halfSubnormal : Q := 2 ^ (-1075).

(** *** Two pixels, one urban at 32.125 degrees and one rural at 25 *)





(** ** Basic facts *)

Lemma Qnonzero_true (v : Q) : Qnonzero v = true <-> ~ v == 0.
Proof.
  unfold Qnonzero. rewrite negb_true_iff.
  split.
  - intros H E. apply Qeq_bool_iff in E. congruence.
  - intros H. destruct (Qeq_bool v 0) eqn:E; [|reflexivity].
    apply Qeq_bool_iff in E. contradiction.
Qed.

Lemma Qgtb_true (v c : Q) : Qgtb v c = true <-> c < v.
Proof.
  unfold Qgtb. rewrite negb_true_iff.
  split.
  - intros H. apply Qnot_le_lt. intros L. apply Qle_bool_iff in L. congruence.
  - intros H. destruct (Qle_bool v c) eqn:E; [|reflexivity].
    apply Qle_bool_iff in E. apply Qlt_not_le in H. contradiction.
Qed.

Lemma Qltb_true (v c : Q) : Qltb v c = true <-> v < c.
Proof. unfold Qltb. apply (Qgtb_true c v). Qed.

Lemma Qltb_false (v c : Q) : Qltb v c = false <-> c <= v.
Proof.
  split.
  - intros H. apply Qnot_lt_le. intros L. apply Qltb_true in L. congruence.
  - intros H. destruct (Qltb v c) eqn:E; [|reflexivity].
    apply Qltb_true in E. apply Qlt_not_le in E. contradiction.
Qed.

Lemma ofBool_nonzero (b : bool) : Qnonzero (ofBool b) = b.
Proof. destruct b; reflexivity. Qed.

Lemma lookup_same {A : Type} (k : string) (a : A) (l : list (string * A)) :
  lookup k ((k, a) :: l) = Some a.
Proof. simpl. rewrite String.eqb_refl. reflexivity. Qed.

Lemma pixelAt_single (n : string) (r : Raster) (p : Pixel) :
  pixelAt [(n, r)] n p = r p.
Proof. unfold pixelAt. rewrite lookup_same. reflexivity. Qed.

(** *** Shapes of the index rasters *)

Lemma ndvi_shape (med nv : Image) :
  UHI.ndvi med = Ok nv ->
  exists nir red,
    lookup "SR_B5" med = Some nir /\ lookup "SR_B4" med = Some red /\
    nv = [("NDVI"%string, eeImage.ndRaster nir red)].
Proof.
  unfold UHI.ndvi, eeImage.normalizedDifference.
  destruct (lookup "SR_B5" med) as [nir|]; [|discriminate].
  destruct (lookup "SR_B4" med) as [red|]; [|discriminate].
  simpl. intros H. injection H as <-. eauto.
Qed.

Lemma ndbi_shape (med nb : Image) :
  UHI.ndbi med = Ok nb ->
  exists swir nir,
    lookup "SR_B6" med = Some swir /\ lookup "SR_B5" med = Some nir /\
    nb = [("NDBI"%string, eeImage.ndRaster swir nir)].
Proof.
  unfold UHI.ndbi, eeImage.normalizedDifference.
  destruct (lookup "SR_B6" med) as [swir|]; [|discriminate].
  destruct (lookup "SR_B5" med) as [nir|]; [|discriminate].
  simpl. intros H. injection H as <-. eauto.
Qed.

(** *** The two masks, pixel by pixel *)

Lemma keeps_urbanMask (n1 n2 : string) (b v : Raster) :
  exists um,
    UHI.urbanMask [(n1, b)] [(n2, v)] = Ok um /\
    forall p,
      keeps um p =
        match b p, v p with
        | Some y, Some x => (Qgtb y 0.1 && Qltb x 0.2)%bool
        | _, _ => false
        end.
Proof.
  eexists. split; [reflexivity|]. intros p.
  simpl. unfold ee.updateMaskRaster, ee.andRaster, ee.pointwise.
  destruct (b p) as [y|]; simpl; [|reflexivity].
  destruct (v p) as [x|]; simpl; [|reflexivity].
  rewrite !ofBool_nonzero.
  destruct (Qgtb y 0.1), (Qltb x 0.2); reflexivity.
Qed.

Lemma keeps_ruralMask (n1 n2 : string) (v b : Raster) :
  exists rm,
    UHI.ruralMask [(n1, v)] [(n2, b)] = Ok rm /\
    forall p,
      keeps rm p =
        match v p, b p with
        | Some x, Some y => (Qgtb x 0.3 && Qltb y (-0.1))%bool
        | _, _ => false
        end.
Proof.
  eexists. split; [reflexivity|]. intros p.
  simpl. unfold ee.andRaster, ee.pointwise.
  destruct (v p) as [x|]; simpl; [|reflexivity].
  destruct (b p) as [y|]; simpl; [|reflexivity].
  rewrite !ofBool_nonzero.
  destruct (Qgtb x 0.3), (Qltb y (-0.1)); reflexivity.
Qed.

Lemma updateMask_single (n k : string) (r m : Raster) :
  exists img,
    ee.updateMask [(n, r)] [(k, m)] = Ok img /\
    forall p, pixelAt img n p = if keeps [(k, m)] p then r p else None.
Proof.
  eexists. split; [reflexivity|]. intros p.
  simpl. rewrite pixelAt_single. unfold ee.updateMaskRaster.
  destruct (m p) as [x|]; reflexivity.
Qed.

(** ** Classifier *)

(** C3. Where NDVI and NDBI are both defined, a pixel is in the urban mask
    exactly when NDBI > 0.1 and NDVI < 0.2, it is in the rural mask exactly
    when NDVI > 0.3 and NDBI < -0.1, and a pixel that satisfies neither
    predicate is in neither mask.  The index rasters are those computed from
    any median composite [med]. *)
Theorem mask_membership (med nv nb : Image) :
  UHI.ndvi med = Ok nv ->
  UHI.ndbi med = Ok nb ->
  exists um rm,
    UHI.urbanMask nb nv = Ok um /\
    UHI.ruralMask nv nb = Ok rm /\
    forall p x y,
      pixelAt nv "NDVI" p = Some x ->
      pixelAt nb "NDBI" p = Some y ->
      (keeps um p = true <-> 0.1 < y /\ x < 0.2) /\
      (keeps rm p = true <-> 0.3 < x /\ y < -0.1) /\
      (~ (0.1 < y /\ x < 0.2) -> ~ (0.3 < x /\ y < -0.1) ->
       keeps um p = false /\ keeps rm p = false).
Proof.
  intros Hv Hb.
  destruct (ndvi_shape _ _ Hv) as (nir & red & _ & _ & ->).
  destruct (ndbi_shape _ _ Hb) as (swir & nir' & _ & _ & ->).
  destruct (keeps_urbanMask "NDBI" "NDVI" (eeImage.ndRaster swir nir')
              (eeImage.ndRaster nir red)) as (um & Hum & Ku).
  destruct (keeps_ruralMask "NDVI" "NDBI" (eeImage.ndRaster nir red)
              (eeImage.ndRaster swir nir')) as (rm & Hrm & Kr).
  exists um, rm. split; [exact Hum|]. split; [exact Hrm|].
  intros p x y Hx Hy.
  rewrite pixelAt_single in Hx, Hy.
  specialize (Ku p). specialize (Kr p). rewrite Hx, Hy in Ku, Kr.
  assert (U : keeps um p = true <-> 0.1 < y /\ x < 0.2).
  { rewrite Ku, andb_true_iff, Qgtb_true, Qltb_true. reflexivity. }
  assert (R : keeps rm p = true <-> 0.3 < x /\ y < -0.1).
  { rewrite Kr, andb_true_iff, Qgtb_true, Qltb_true. reflexivity. }
  split; [exact U|]. split; [exact R|].
  intros NU NR. split.
  - destruct (keeps um p); [|reflexivity]. exfalso. apply NU, U. reflexivity.
  - destruct (keeps rm p); [|reflexivity]. exfalso. apply NR, R. reflexivity.
Qed.

Lemma mask_membership_witness :
  exists nv nb um rm,
    UHI.ndvi (bands syntheticScene) = Ok nv /\
    UHI.ndbi (bands syntheticScene) = Ok nb /\
    UHI.urbanMask nb nv = Ok um /\
    UHI.ruralMask nv nb = Ok rm /\
    keeps um (px 0) = true /\ keeps rm (px 0) = false /\
    keeps um (px 2) = false /\ keeps rm (px 2) = true.
Proof.
  destruct (mask_membership (bands syntheticScene) _ _ eq_refl eq_refl)
    as (um & rm & Hu & Hr & Hp).
  destruct (Hp (px 0) _ _ eq_refl eq_refl) as (U0 & R0 & _).
  destruct (Hp (px 2) _ _ eq_refl eq_refl) as (U2 & R2 & _).
  do 2 eexists. exists um, rm.
  split; [reflexivity|]. split; [reflexivity|].
  split; [exact Hu|]. split; [exact Hr|].
  split; [apply U0; split; vm_compute; reflexivity|].
  split.
  { destruct (keeps rm (px 0)); [|reflexivity].
    destruct (proj1 R0 eq_refl) as [H _]. vm_compute in H. discriminate. }
  split.
  { destruct (keeps um (px 2)); [|reflexivity].
    destruct (proj1 U2 eq_refl) as [H _]. vm_compute in H. discriminate. }
  apply R2; split; vm_compute; reflexivity.
Defined.

(** C4. The urban and the rural mask are disjoint, whatever the values of the
    two index rasters are: no pixel is kept by both. *)
Theorem masks_disjoint (n1 n2 : string) (v b : Raster) :
  exists um rm,
    UHI.urbanMask [(n2, b)] [(n1, v)] = Ok um /\
    UHI.ruralMask [(n1, v)] [(n2, b)] = Ok rm /\
    forall p, (keeps um p && keeps rm p)%bool = false.
Proof.
  destruct (keeps_urbanMask n2 n1 b v) as (um & Hum & Ku).
  destruct (keeps_ruralMask n1 n2 v b) as (rm & Hrm & Kr).
  exists um, rm. split; [exact Hum|]. split; [exact Hrm|].
  intros p. rewrite Ku, Kr.
  destruct (b p) as [y|]; [|reflexivity].
  destruct (v p) as [x|]; [|reflexivity].
  destruct (Qgtb y 0.1 && Qltb x 0.2)%bool eqn:U; [|reflexivity].
  destruct (Qgtb x 0.3 && Qltb y (-0.1))%bool eqn:R; [|reflexivity].
  exfalso.
  apply andb_true_iff in U. destruct U as [U1 U2].
  apply andb_true_iff in R. destruct R as [R1 R2].
  apply Qgtb_true in U1, R1. apply Qltb_true in U2, R2.
  lra.
Qed.

(** ** Band transformer: the normalized differences *)

Lemma ndRaster_range (a b : Raster) (p : Pixel) (x : Q) :
  eeImage.ndRaster a b p = Some x -> -1 <= x /\ x <= 1.
Proof.
  unfold eeImage.ndRaster.
  destruct (a p) as [u|]; [|discriminate].
  destruct (b p) as [w|]; [|discriminate].
  destruct (Qltb u 0 || Qltb w 0)%bool eqn:Neg; [discriminate|].
  apply orb_false_iff in Neg. destruct Neg as [Hu Hw].
  apply Qltb_false in Hu, Hw.
  destruct (Qeq_bool (u + w) 0) eqn:Z; [discriminate|].
  apply Qeq_bool_neq in Z.
  intros H. injection H as <-.
  assert (Pos : 0 < u + w).
  { destruct (Qlt_le_dec 0 (u + w)) as [L|L]; [exact L|].
    exfalso. apply Z. lra. }
  split.
  - apply Qle_shift_div_l; [exact Pos|]. lra.
  - apply Qle_shift_div_r; [exact Pos|]. lra.
Qed.

Lemma ndRaster_zero_denominator (a b : Raster) (p : Pixel) (x y : Q) :
  a p = Some x -> b p = Some y -> x + y == 0 -> eeImage.ndRaster a b p = None.
Proof.
  intros Ha Hb Z. unfold eeImage.ndRaster. rewrite Ha, Hb.
  destruct (Qltb x 0 || Qltb y 0)%bool; [reflexivity|].
  apply Qeq_bool_iff in Z. rewrite Z. reflexivity.
Qed.

Lemma pixelAt_lookup (img : Image) (b : string) (r : Raster) (p : Pixel) :
  lookup b img = Some r -> pixelAt img b p = r p.
Proof. intros H. unfold pixelAt. rewrite H. reflexivity. Qed.

(** The index rasters exist as soon as the composite has the bands: no pixel
    value can make the computation fail. *)
Lemma indices_total (med : Image) :
  ee.hasBand "SR_B4" med = true ->
  ee.hasBand "SR_B5" med = true ->
  ee.hasBand "SR_B6" med = true ->
  isOk (UHI.ndvi med) = true /\ isOk (UHI.ndbi med) = true.
Proof.
  unfold ee.hasBand, UHI.ndvi, UHI.ndbi, eeImage.normalizedDifference.
  destruct (lookup "SR_B4" med); [|discriminate].
  destruct (lookup "SR_B5" med); [|discriminate].
  destruct (lookup "SR_B6" med); [|discriminate].
  split; reflexivity.
Qed.

(** C7. Wherever NDVI or NDBI is defined its value lies in [-1, 1], and a
    pixel whose denominator is zero (NIR + Red = 0 for NDVI, SWIR + NIR = 0
    for NDBI) is a no-data pixel of the index raster. *)
Theorem index_range_and_nodata (med nv nb : Image) :
  UHI.ndvi med = Ok nv ->
  UHI.ndbi med = Ok nb ->
  forall p,
    (forall x, pixelAt nv "NDVI" p = Some x -> -1 <= x /\ x <= 1) /\
    (forall y, pixelAt nb "NDBI" p = Some y -> -1 <= y /\ y <= 1) /\
    (forall nir red,
        pixelAt med "SR_B5" p = Some nir -> pixelAt med "SR_B4" p = Some red ->
        nir + red == 0 -> pixelAt nv "NDVI" p = None) /\
    (forall swir nir,
        pixelAt med "SR_B6" p = Some swir -> pixelAt med "SR_B5" p = Some nir ->
        swir + nir == 0 -> pixelAt nb "NDBI" p = None).
Proof.
  intros Hv Hb p.
  destruct (ndvi_shape _ _ Hv) as (nir & red & Lnir & Lred & ->).
  destruct (ndbi_shape _ _ Hb) as (swir & nir' & Lswir & Lnir' & ->).
  rewrite !pixelAt_single.
  rewrite (pixelAt_lookup _ _ _ p Lnir), (pixelAt_lookup _ _ _ p Lred),
    (pixelAt_lookup _ _ _ p Lswir).
  repeat split.
  - apply (ndRaster_range _ _ _ _ H).
  - apply (ndRaster_range _ _ _ _ H).
  - apply (ndRaster_range _ _ _ _ H).
  - apply (ndRaster_range _ _ _ _ H).
  - intros x y Hx Hy Z. apply (ndRaster_zero_denominator _ _ _ _ _ Hx Hy Z).
  - intros x y Hx Hy Z.
    assert (E : nir' = nir) by congruence. subst nir'.
    apply (ndRaster_zero_denominator _ _ _ _ _ Hx Hy Z).
Qed.

Lemma index_range_and_nodata_witness :
  exists nv,
    UHI.ndvi (bands syntheticScene) = Ok nv /\
    forall x, pixelAt nv "NDVI" (px 2) = Some x -> -1 <= x /\ x <= 1.
Proof.
  eexists. split; [reflexivity|].
  apply (index_range_and_nodata (bands syntheticScene) _ _ eq_refl eq_refl (px 2)).
Defined.

(** ** Aggregator: region means *)

Lemma accumulate_sums (r : Raster) (cells : Geometry) (acc : Q * Q) :
  fst (eeImage.accumulate r cells acc) == fst acc + wsum (validCells r cells) /\
  snd (eeImage.accumulate r cells acc) == snd acc + wtot (validCells r cells).
Proof.
  revert acc. induction cells as [|[p w] cells IH]; intros acc.
  - unfold wsum, wtot. simpl. split; ring.
  - simpl. destruct (r p) as [v|].
    + destruct (Qltb 0 w).
      * destruct (IH (fst acc + w * v, snd acc + w)) as [H1 H2].
        unfold wsum, wtot in *. simpl in *. rewrite H1, H2. split; ring.
      * apply IH.
    + apply IH.
Qed.

Lemma validCells_positive (r : Raster) (cells : Geometry) :
  Forall (fun wv => 0 < fst wv) (validCells r cells).
Proof.
  induction cells as [|[p w] cells IH]; simpl; [constructor|].
  destruct (r p) as [v|]; [|exact IH].
  destruct (Qltb 0 w) eqn:E; [|exact IH].
  simpl. constructor; [|exact IH]. simpl. apply Qltb_true. exact E.
Qed.

Lemma wtot_nonneg (l : list (Q * Q)) :
  Forall (fun wv => 0 < fst wv) l -> 0 <= wtot l.
Proof.
  unfold wtot. induction 1 as [|wv l H _ IH]; simpl; lra.
Qed.

Lemma wtot_positive (wv : Q * Q) (l : list (Q * Q)) :
  Forall (fun wv => 0 < fst wv) (wv :: l) -> 0 < wtot (wv :: l).
Proof.
  intros H. inversion H as [|? ? H1 H2]; subst.
  apply wtot_nonneg in H2. unfold wtot in *. simpl. lra.
Qed.

(** The platform's one-pass weighted mean is the area-weighted mean of the
    contributing cells. *)
Lemma weightedMean_spec (r : Raster) (cells : Geometry) :
  oQeq (eeImage.weightedMean r cells) (areaWeightedMean (validCells r cells)).
Proof.
  unfold eeImage.weightedMean.
  destruct (accumulate_sums r cells (0, 0)) as [H1 H2]. simpl in H1, H2.
  pose proof (validCells_positive r cells) as P.
  destruct (validCells r cells) as [|wv l] eqn:E.
  - unfold wtot in H2. simpl in H2.
    assert (Z : snd (eeImage.accumulate r cells (0, 0)) == 0) by lra.
    unfold Qnonzero. apply Qeq_bool_iff in Z. rewrite Z. exact I.
  - apply wtot_positive in P.
    assert (NZ : ~ snd (eeImage.accumulate r cells (0, 0)) == 0) by lra.
    apply Qnonzero_true in NZ. rewrite NZ. simpl.
    rewrite H1, H2. field. lra.
Qed.

Lemma validCells_ext (r r' : Raster) (cells : Geometry) :
  (forall p, r p = r' p) -> validCells r cells = validCells r' cells.
Proof.
  intros H. induction cells as [|[p w] cells IH]; simpl; [reflexivity|].
  rewrite H, IH. reflexivity.
Qed.

Lemma accumulate_ext (r r' : Raster) (cells : Geometry) (acc : Q * Q) :
  (forall p, r p = r' p) ->
  eeImage.accumulate r cells acc = eeImage.accumulate r' cells acc.
Proof.
  intros H. revert acc. induction cells as [|[p w] cells IH]; intros acc; simpl.
  - reflexivity.
  - rewrite H. destruct (r' p); [destruct (Qltb 0 w)|]; apply IH.
Qed.

Lemma weightedMean_ext (r r' : Raster) (cells : Geometry) :
  (forall p, r p = r' p) ->
  eeImage.weightedMean r cells = eeImage.weightedMean r' cells.
Proof.
  intros H. unfold eeImage.weightedMean.
  rewrite (accumulate_ext r r' cells (0, 0) H). reflexivity.
Qed.

Lemma updateMaskRaster_restrict (r m : Raster) (k : string) (p : Pixel) :
  ee.updateMaskRaster r m p = restrict r [(k, m)] p.
Proof.
  unfold ee.updateMaskRaster, restrict. simpl.
  destruct (m p) as [x|]; reflexivity.
Qed.

Lemma reduceRegion_within (args : eeImage.ReduceRegionArgs) (img : Image) :
  (Z.of_nat (List.length (eeImage.geometry args)) <= eeImage.maxPixels args)%Z ->
  eeImage.reduceRegion args img =
  Ok (List.map (fun b => (fst b, eeImage.weightedMean (snd b) (eeImage.geometry args))) img).
Proof.
  intros H. unfold eeImage.reduceRegion. apply Z.ltb_ge in H. rewrite H. reflexivity.
Qed.

Lemma reduceRegion_over (args : eeImage.ReduceRegionArgs) (img : Image) :
  (eeImage.maxPixels args < Z.of_nat (List.length (eeImage.geometry args)))%Z ->
  eeImage.reduceRegion args img =
  Err (TooManyPixels (Z.of_nat (List.length (eeImage.geometry args))) (eeImage.maxPixels args)).
Proof.
  intros H. unfold eeImage.reduceRegion. apply Z.ltb_lt in H. rewrite H. reflexivity.
Qed.

(** The masked region mean the script computes for one mask: [updateMask],
    [reduceRegion] over the boundary, then [get('LST')]. *)
Lemma masked_region_mean (l m : Raster) (k : string) (g : Geometry) :
  (Z.of_nat (List.length g) <= 10 ^ 13)%Z ->
  (img <- ee.updateMask [("LST"%string, l)] [(k, m)] ;;
   d <- eeImage.reduceRegion (UHI.regionArgs g) img ;;
   eeImage.get "LST" d)
  = Ok (eeImage.weightedMean (ee.updateMaskRaster l m) g) /\
  oQeq (eeImage.weightedMean (ee.updateMaskRaster l m) g) (RegionMean l [(k, m)] g).
Proof.
  intros Hn. split.
  - unfold ee.updateMask, ee.binop, bind.
    rewrite reduceRegion_within by exact Hn.
    reflexivity.
  - unfold RegionMean.
    rewrite <- (validCells_ext (ee.updateMaskRaster l m) (restrict l [(k, m)]) g
                  (updateMaskRaster_restrict l m k)).
    apply weightedMean_spec.
Qed.

(** ** Number formatting *)

Lemma Qltb_comp (x y c : Q) : x == y -> Qltb x c = Qltb y c.
Proof.
  intros E.
  destruct (Qltb x c) eqn:A, (Qltb y c) eqn:B; try reflexivity.
  - apply Qltb_true in A. apply Qltb_false in B. lra.
  - apply Qltb_false in A. apply Qltb_true in B. lra.
Qed.

Lemma toFixedQ_comp (k : nat) (x y : Q) : x == y -> JS.toFixedQ k x = JS.toFixedQ k y.
Proof.
  intros E. unfold JS.toFixedQ.
  rewrite (Qltb_comp x y 0 E).
  assert (F : Qfloor (Qabs x * inject_Z (10 ^ Z.of_nat k) + (1 # 2)) =
              Qfloor (Qabs y * inject_Z (10 ^ Z.of_nat k) + (1 # 2))).
  { apply Qfloor_comp. rewrite E. reflexivity. }
  rewrite F. reflexivity.
Qed.

Lemma uhi_numbers (u r : Q) :
  UHI.uhi (JS.JNumber u) (JS.JNumber r) = inr (JS.toFixedQ 2 (u - r)).
Proof. reflexivity. Qed.

(** Two decimals, the larger neighbour on a tie, the sign kept on a negative
    value that rounds to zero. *)
Example toFixed_samples :
  JS.toFixedQ 2 7 = "7.00"%string /\
  JS.toFixedQ 2 (12345 # 1000) = "12.35"%string /\
  JS.toFixedQ 2 (-1 # 1000) = "-0.00"%string /\
  JS.toFixed 2 JS.JNaN = inr "NaN"%string.
Proof. repeat split; vm_compute; reflexivity. Qed.

(** The [-] operator turns a null operand into 0 and an undefined operand
    into NaN; only the later [toFixed] calls on [uTemp] and [rTemp]
    themselves throw. *)
Example uhi_of_missing_operands :
  UHI.uhi (JS.JNumber 32) JS.JNull = inr "32.00"%string /\
  UHI.uhi (JS.JNumber 32) JS.JUndefined = inr "NaN"%string /\
  reportedUHI (UHI.statsPanel (Ok (Some 32)) (Ok None)) = None /\
  reportedUHI (UHI.statsPanel (Ok (Some 32)) (Err (KeyNotFound "LST"))) = None.
Proof. repeat split; vm_compute; reflexivity. Qed.

(** ** Scalar UHI intensity *)

Lemma urbanMeanOf_single (l m : Raster) (k : string) (g : Geometry) :
  (Z.of_nat (List.length g) <= 10 ^ 13)%Z ->
  urbanMeanOf [("LST"%string, l)] [(k, m)] g
  = Ok (eeImage.weightedMean (ee.updateMaskRaster l m) g).
Proof. intros H. apply (masked_region_mean l m k g H). Qed.

Lemma ruralMeanOf_single (l m : Raster) (k : string) (g : Geometry) :
  (Z.of_nat (List.length g) <= 10 ^ 13)%Z ->
  ruralMeanOf [("LST"%string, l)] [(k, m)] g
  = Ok (eeImage.weightedMean (ee.updateMaskRaster l m) g).
Proof. intros H. apply (masked_region_mean l m k g H). Qed.

(** C1. The scalar UHI intensity is the masked region mean of the LST
    composite over the urban mask minus the masked region mean over the rural
    mask, both over the same boundary at the same scale; [uhi] is that
    difference printed with two decimals.  On the synthetic four-pixel scene
    (urban pixels at 30 and 34, rural pixels at 24 and 26) the urban mean is
    32, the rural mean is 25 and the UHI intensity is 7. *)
Theorem uhi_is_difference_of_region_means :
  (forall (l um rm : Raster) (ku kr : string) (javaBounds : Geometry),
      (Z.of_nat (List.length javaBounds) <= 10 ^ 13)%Z ->
      exists u r,
        urbanMeanOf [("LST"%string, l)] [(ku, um)] javaBounds = Ok u /\
        ruralMeanOf [("LST"%string, l)] [(kr, rm)] javaBounds = Ok r /\
        oQeq u (RegionMean l [(ku, um)] javaBounds) /\
        oQeq r (RegionMean l [(kr, rm)] javaBounds) /\
        forall uq rq,
          u = Some uq -> r = Some rq ->
          UHI.uhi (JS.evaluated (Ok u)) (JS.evaluated (Ok r))
          = inr (JS.toFixedQ 2 (uq - rq)))
  /\
  (Forall2 oQeq
     (List.map (pixelOf (Run.urbanLST [syntheticScene] [] syntheticBounds) "LST")
        [px 0; px 1; px 2; px 3])
     [Some 30; Some 34; None; None] /\
   Forall2 oQeq
     (List.map (pixelOf (Run.ruralLST [syntheticScene] [] syntheticBounds) "LST")
        [px 0; px 1; px 2; px 3])
     [None; None; Some 24; Some 26] /\
   exists u r,
     Run.urbanTempLST [syntheticScene] [] syntheticBounds = Ok (Some u) /\
     Run.ruralTempLST [syntheticScene] [] syntheticBounds = Ok (Some r) /\
     u == 32 /\ r == 25 /\ u - r == 7 /\
     UHI.uhi (JS.JNumber u) (JS.JNumber r) = inr "7.00"%string /\
     reportedUHI (Run.statsPanel [syntheticScene] [] syntheticBounds)
     = Some "7.00 °C"%string).
Proof.
  split.
  - intros l um rm ku kr g Hn.
    destruct (masked_region_mean l um ku g Hn) as [_ Su].
    destruct (masked_region_mean l rm kr g Hn) as [_ Sr].
    eexists. eexists.
    split; [apply urbanMeanOf_single; exact Hn|].
    split; [apply ruralMeanOf_single; exact Hn|].
    split; [exact Su|]. split; [exact Sr|].
    intros uq rq -> ->. reflexivity.
  - split; [|split].
    + repeat constructor; vm_compute; reflexivity.
    + repeat constructor; vm_compute; reflexivity.
    + eexists. eexists.
      split; [vm_compute; reflexivity|].
      split; [vm_compute; reflexivity|].
      repeat split; vm_compute; reflexivity.
Qed.

Lemma uhi_is_difference_of_region_means_witness :
  exists u r,
    urbanMeanOf [("LST"%string, row (fun i => Some (inject_Z i)))]
      [("m"%string, row (fun i => if (i <? 2)%Z then Some 1 else None))]
      syntheticBounds = Ok u /\
    ruralMeanOf [("LST"%string, row (fun i => Some (inject_Z i)))]
      [("m"%string, row (fun i => if (i <? 2)%Z then Some 0 else Some 1))]
      syntheticBounds = Ok r /\
    oQeq u (Some (1 # 2)) /\ oQeq r (Some (5 # 2)).
Proof.
  destruct (proj1 uhi_is_difference_of_region_means
              (row (fun i => Some (inject_Z i)))
              (row (fun i => if (i <? 2)%Z then Some 1 else None))
              (row (fun i => if (i <? 2)%Z then Some 0 else Some 1))
              "m"%string "m"%string syntheticBounds)
    as (u & r & Hu & Hr & _).
  - vm_compute. discriminate.
  - exists u, r. split; [exact Hu|]. split; [exact Hr|].
    vm_compute in Hu. vm_compute in Hr.
    injection Hu as <-. injection Hr as <-.
    split; vm_compute; reflexivity.
Defined.

(** ** Translation of the LST composite *)

Lemma validCells_shift (c : Q) (r r' : Raster) (cells : Geometry) :
  (forall p, r' p = option_map (fun v => v + c) (r p)) ->
  validCells r' cells = List.map (fun wv => (fst wv, snd wv + c)) (validCells r cells).
Proof.
  intros H. induction cells as [|[p w] cells IH]; simpl; [reflexivity|].
  rewrite H, IH.
  destruct (r p) as [v|]; simpl; [|reflexivity].
  destruct (Qltb 0 w); reflexivity.
Qed.

Lemma wsum_shift (c : Q) (l : list (Q * Q)) :
  wsum (List.map (fun wv => (fst wv, snd wv + c)) l) == wsum l + c * wtot l.
Proof.
  unfold wsum, wtot. induction l as [|[w v] l IH]; simpl.
  - ring.
  - rewrite IH. ring.
Qed.

Lemma wtot_shift (c : Q) (l : list (Q * Q)) :
  wtot (List.map (fun wv => (fst wv, snd wv + c)) l) == wtot l.
Proof.
  unfold wtot. induction l as [|[w v] l IH]; simpl.
  - reflexivity.
  - rewrite IH. reflexivity.
Qed.

Lemma weightedMean_shift (c : Q) (r r' : Raster) (cells : Geometry) :
  (forall p, r' p = option_map (fun v => v + c) (r p)) ->
  shiftedBy c (Ok (eeImage.weightedMean r cells)) (Ok (eeImage.weightedMean r' cells)).
Proof.
  intros H.
  pose proof (weightedMean_spec r cells) as S.
  pose proof (weightedMean_spec r' cells) as S'.
  rewrite (validCells_shift c r r' cells H) in S'.
  pose proof (validCells_positive r cells) as P.
  destruct (validCells r cells) as [|wv l].
  - simpl in S, S'.
    destruct (eeImage.weightedMean r cells); [contradiction|].
    destruct (eeImage.weightedMean r' cells); [contradiction|].
    exact I.
  - apply wtot_positive in P.
    pose proof (wsum_shift c (wv :: l)) as W.
    pose proof (wtot_shift c (wv :: l)) as T.
    destruct (eeImage.weightedMean r cells) as [x|]; [|contradiction].
    destruct (eeImage.weightedMean r' cells) as [y|]; [|contradiction].
    unfold oQeq, areaWeightedMean in S, S'.
    cbn [List.map] in S'. cbn [List.map] in W, T.
    unfold shiftedBy. rewrite S', S, W, T. field. lra.
Qed.



Lemma statsPanel_numbers (u r : Q) :
  reportedUHI (UHI.statsPanel (Ok (Some u)) (Ok (Some r)))
  = Some (JS.toFixedQ 2 (u - r) ++ " °C")%string.
Proof. reflexivity. Qed.

Lemma statsPanel_missing (u r : result (option Q)) :
  (forall x y, ~ (u = Ok (Some x) /\ r = Ok (Some y))) ->
  reportedUHI (UHI.statsPanel u r) = None.
Proof.
  intros H.
  destruct u as [[x|]|e]; destruct r as [[y|]|e']; try reflexivity.
  exfalso. apply (H x y). split; reflexivity.
Qed.

(** *** Rounding to the nearest double *)

Lemma floorLog2_le (a : Q) : 0 < a -> 2 ^ JS64.floorLog2 a <= a.
Proof.
  intros P. unfold JS64.floorLog2.
  destruct (Qle_bool _ a) eqn:E; [apply Qle_bool_iff; exact E|].
  clear E. destruct a as [n d]. cbn [Qnum Qden].
  assert (Hn : (0 < n)%Z) by (unfold Qlt in P; simpl in P; lia).
  pose proof (Z.log2_spec n Hn) as [L1 _].
  pose proof (Z.log2_spec (Zpos d) (Pos2Z.is_pos d)) as [_ L2].
  pose proof (Z.log2_nonneg n) as N1.
  pose proof (Z.log2_nonneg (Zpos d)) as N2.
  replace (Z.log2 n - Z.log2 (Z.pos d) - 1)%Z
    with (Z.log2 n - Z.succ (Z.log2 (Z.pos d)))%Z by lia.
  rewrite Qpower_minus by (intros Q0; discriminate Q0).
  change 2 with (inject_Z 2).
  rewrite <- !Zpower_Qpower by lia.
  set (x := (2 ^ Z.log2 n)%Z) in *.
  set (y := (2 ^ Z.succ (Z.log2 (Z.pos d)))%Z) in *.
  assert (Y : (0 < y)%Z) by lia.
  apply Qle_shift_div_r;
    [change 0 with (inject_Z 0); rewrite <- Zlt_Qlt; exact Y|].
  unfold Qle, Qmult, inject_Z; cbn [Qnum Qden].
  nia.
Qed.

Lemma roundHalfEven_near (x : Q) :
  Qabs (inject_Z (JS64.roundHalfEven x) - x) <= 1 # 2.
Proof.
  unfold JS64.roundHalfEven.
  pose proof (Qfloor_le x) as F1. pose proof (Qlt_floor x) as F2.
  rewrite inject_Z_plus in F2. change (inject_Z 1) with 1 in F2.
  apply Qabs_Qle_condition.
  destruct (Qltb (x - _) (1 # 2)) eqn:A.
  - apply Qltb_true in A. lra.
  - apply Qltb_false in A. destruct (Qltb (1 # 2) _) eqn:B.
    + rewrite inject_Z_plus. change (inject_Z 1) with 1. lra.
    + apply Qltb_false in B. destruct (Z.even _);
        [|rewrite inject_Z_plus; change (inject_Z 1) with 1]; lra.
Qed.

Lemma halfUlp_small : 0 < halfUlp /\ halfUlp <= 1 # 1024.
Proof. split; [reflexivity|]. apply Qle_bool_iff. vm_compute. reflexivity. Qed.

Lemma halfSubnormal_small :
  0 < halfSubnormal /\ halfSubnormal <= halfUlp * (1 # 1024).
Proof. split; [reflexivity|]. apply Qle_bool_iff. vm_compute. reflexivity. Qed.

Lemma Qabs_cases (x : Q) : (0 <= x /\ Qabs x == x) \/ (x < 0 /\ Qabs x == - x).
Proof.
  destruct (Qlt_le_dec x 0) as [N|P].
  - right. split; [exact N|]. apply Qabs_neg. lra.
  - left. split; [exact P|]. apply Qabs_pos. exact P.
Qed.

Lemma Qabs_positive (q : Q) : ~ q == 0 -> 0 < Qabs q.
Proof.
  intros Z0. destruct (Qabs_cases q) as [[P A]|[N A]]; rewrite A; [|lra].
  destruct (Qlt_le_dec 0 q) as [L|L]; [exact L|]. exfalso. apply Z0. lra.
Qed.

(** The rounded magnitude is within half a spacing of the magnitude. *)
Lemma rounded_magnitude_near (a : Q) :
  0 < a ->
  Qabs (inject_Z (JS64.roundHalfEven (a / 2 ^ Z.max (JS64.floorLog2 a - 52) (-1074)))
        * 2 ^ Z.max (JS64.floorLog2 a - 52) (-1074) - a)
  <= a * halfUlp + halfSubnormal.
Proof.
  intros P.
  set (e := Z.max (JS64.floorLog2 a - 52) (-1074)).
  assert (E0 : 0 < 2 ^ e) by (apply Qpower_0_lt; reflexivity).
  pose proof (roundHalfEven_near (a / 2 ^ e)) as R.
  set (z := inject_Z (JS64.roundHalfEven (a / 2 ^ e))) in *.
  assert (S : z * 2 ^ e - a == (z - a / 2 ^ e) * 2 ^ e) by (field; lra).
  rewrite S, Qabs_Qmult, (Qabs_pos (2 ^ e)) by lra.
  assert (H : 2 ^ e * (1 # 2) <= a * halfUlp + halfSubnormal).
  { assert (X : 0 <= a * halfUlp).
    { apply Qmult_le_0_compat; [lra|]. apply Qpower_0_le. discriminate. }
    assert (Y : 0 <= halfSubnormal) by (apply Qpower_0_le; discriminate).
    unfold e.
    destruct (Z.max_spec (JS64.floorLog2 a - 52) (-1074)) as [[_ ->]|[_ ->]].
    - change (2 ^ (-1074) * (1 # 2)) with (2 ^ (-1074) * 2 ^ (-1)).
      rewrite <- Qpower_plus by discriminate.
      change (-1074 + -1)%Z with (-1075)%Z. fold halfSubnormal. lra.
    - change (1 # 2) with (2 ^ (-1)). rewrite <- Qpower_plus by discriminate.
      replace (JS64.floorLog2 a - 52 + -1)%Z
        with (JS64.floorLog2 a + -53)%Z by lia.
      rewrite Qpower_plus by discriminate. fold halfUlp.
      pose proof (floorLog2_le a P) as L.
      assert (E1 : 0 <= halfUlp) by (apply Qpower_0_le; discriminate).
      pose proof (Qmult_le_compat_r _ _ halfUlp L E1). lra. }
  pose proof (Qabs_nonneg (z - a / 2 ^ e)) as N.
  pose proof (Qmult_le_compat_r _ _ (2 ^ e) R (Qlt_le_weak _ _ E0)) as M.
  lra.
Qed.

(** The double nearest to [q] is within relative distance 2^-53 of [q], or
    within 2^-1075 in the subnormal range. *)
Lemma toDouble_error (q d : Q) :
  JS64.toDouble q = Some d -> Qabs (d - q) <= Qabs q * halfUlp + halfSubnormal.
Proof.
  unfold JS64.toDouble. destruct (Qeq_bool q 0) eqn:Z0.
  - intros H. injection H as <-. apply Qeq_bool_eq in Z0.
    pose proof halfUlp_small. pose proof halfSubnormal_small.
    rewrite Z0. change (Qabs (0 - 0)) with 0. change (Qabs 0) with 0. lra.
  - apply Qeq_bool_neq in Z0.
    pose proof (rounded_magnitude_near (Qabs q) (Qabs_positive q Z0)) as E.
    destruct (Qle_bool (2 ^ 1024) _); [discriminate|].
    intros H. injection H as <-.
    set (d0 := inject_Z _ * _) in *.
    destruct (Qltb q 0) eqn:S.
    + apply Qltb_true in S. rewrite (Qabs_neg q) in E by lra.
      rewrite (Qabs_neg q) by lra.
      assert (X : - d0 - q == - (d0 - - q)) by ring.
      rewrite X, Qabs_opp. exact E.
    + apply Qltb_false in S. rewrite (Qabs_pos q) in E by lra.
      rewrite (Qabs_pos q) by lra. exact E.
Qed.

(** Every number up to 2^50 in magnitude has a nearest double. *)
Lemma toDouble_defined (q : Q) :
  Qabs q <= 2 ^ 50 -> exists d, JS64.toDouble q = Some d.
Proof.
  intros B. unfold JS64.toDouble.
  destruct (Qeq_bool q 0) eqn:Z0; [eexists; reflexivity|].
  apply Qeq_bool_neq in Z0.
  pose proof (rounded_magnitude_near (Qabs q) (Qabs_positive q Z0)) as E.
  set (d0 := inject_Z _ * _) in *.
  destruct (Qle_bool (2 ^ 1024) d0) eqn:L; [|eexists; reflexivity].
  exfalso. apply Qle_bool_iff in L.
  apply Qabs_Qle_condition in E.
  pose proof halfUlp_small as [E1 E2]. pose proof halfSubnormal_small as [E3 E4].
  assert (T : 2 ^ 52 <= 2 ^ 1024) by (apply Qle_bool_iff; vm_compute; reflexivity).
  assert (X : Qabs q * halfUlp <= 2 ^ 50 * halfUlp)
    by (apply Qmult_le_compat_r; lra).
  set (big := 2 ^ 1024) in *.
  assert (Y : 2 ^ 50 * halfUlp <= 2 ^ 50 * (1 # 1024))
    by (apply Qmult_le_l; [reflexivity|exact E2]).
  change (2 ^ 50) with (1125899906842624 # 1) in *.
  change (2 ^ 52) with (4503599627370496 # 1) in *.
  lra.
Qed.

(** Doubles are kept; 0.1 becomes 0x1.999999999999ap-4, also with a sign; a
    number halfway between two doubles goes to the one with the even
    significand, in the subnormal range too; the largest double is kept and
    2^1024 has no double. *)
Example toDouble_samples :
  option_map (Qeq_bool 7.125) (JS64.toDouble 7.125) = Some true /\
  option_map (Qeq_bool (3602879701896397 # 36028797018963968))
    (JS64.toDouble 0.1) = Some true /\
  option_map (Qeq_bool (- (3602879701896397 # 36028797018963968)))
    (JS64.toDouble (- 0.1)) = Some true /\
  option_map (Qeq_bool 1) (JS64.toDouble (1 + 2 ^ (-53))) = Some true /\
  option_map (Qeq_bool (1 + 2 ^ (-51)))
    (JS64.toDouble (1 + 3 * 2 ^ (-53))) = Some true /\
  option_map (Qeq_bool (1 + 2 ^ (-52)))
    (JS64.toDouble (1 + 2 ^ (-53) + 2 ^ (-60))) = Some true /\
  option_map (Qeq_bool 0) (JS64.toDouble (2 ^ (-1075))) = Some true /\
  option_map (Qeq_bool (2 ^ (-1073)))
    (JS64.toDouble (3 * 2 ^ (-1075))) = Some true /\
  option_map (Qeq_bool ((2 ^ 53 - 1) * 2 ^ 971))
    (JS64.toDouble ((2 ^ 53 - 1) * 2 ^ 971)) = Some true /\
  JS64.toDouble (2 ^ 1024) = None /\
  JS64.toDouble ((2 ^ 53 - (1 # 2)) * 2 ^ 971) = None.
Proof. repeat split; vm_compute; reflexivity. Qed.

(** The client's difference of two numbers received from the server is
    within [M * 2^-50] of their exact difference. *)
Lemma double_difference_near (u r M : Q) :
  1 <= M -> M <= 2 ^ 42 -> Qabs u <= M -> Qabs r <= M ->
  exists U R D,
    JS64.toDouble u = Some U /\ JS64.toDouble r = Some R /\
    JS64.toDouble (U - R) = Some D /\
    Qabs (D - (u - r)) <= M * 2 ^ (-50) /\ Qabs D <= 3 * M.
Proof.
  intros M1 M2 Bu Br.
  change (2 ^ 42) with (4398046511104 # 1) in M2.
  assert (T : forall q, Qabs q <= 3 * M -> Qabs q <= 2 ^ 50).
  { intros q Hq. change (2 ^ 50) with (1125899906842624 # 1). lra. }
  destruct (toDouble_defined u) as [U HU]; [apply T; lra|].
  destruct (toDouble_defined r) as [R HR]; [apply T; lra|].
  pose proof (toDouble_error _ _ HU) as EU.
  pose proof (toDouble_error _ _ HR) as ER.
  pose proof halfSubnormal_small as [H1 H2].
  unfold halfUlp in *. change (2 ^ (-53)) with (1 # 9007199254740992) in *.
  assert (BD : Qabs (U - R) <= 3 * M).
  { apply Qabs_Qle_condition. apply Qabs_Qle_condition in EU, ER.
    apply Qabs_Qle_condition in Bu, Br.
    destruct (Qabs_cases u) as [[? Au]|[? Au]];
      destruct (Qabs_cases r) as [[? Ar]|[? Ar]];
      rewrite Au in EU; rewrite Ar in ER; lra. }
  destruct (toDouble_defined (U - R)) as [D HD]; [apply T; exact BD|].
  pose proof (toDouble_error _ _ HD) as ED.
  unfold halfUlp in ED. change (2 ^ (-53)) with (1 # 9007199254740992) in ED.
  exists U, R, D. repeat (split; [assumption|]).
  change (2 ^ (-50)) with (1 # 1125899906842624).
  rewrite !Qabs_Qle_condition.
  apply Qabs_Qle_condition in EU, ER, ED, BD.
  apply Qabs_Qle_condition in Bu, Br.
  destruct (Qabs_cases u) as [[? Au]|[? Au]];
    destruct (Qabs_cases r) as [[? Ar]|[? Ar]];
    destruct (Qabs_cases (U - R)) as [[? Ad]|[? Ad]];
    rewrite Au in EU; rewrite Ar in ER; rewrite Ad in ED; lra.
Qed.

(** Two numbers less than a hundredth apart print, with two decimals, as
    the same number or as neighbours. *)
Lemma fixedUnits_close (x y : Q) :
  Qabs (y - x) < 1 # 100 -> (Z.abs (fixedUnits 2 y - fixedUnits 2 x) <= 1)%Z.
Proof.
  intros C.
  assert (C' : - (1 # 100) < y - x < 1 # 100).
  { destruct (Qabs_cases (y - x)) as [[? A]|[? A]]; rewrite A in C; lra. }
  clear C. unfold fixedUnits. change (inject_Z (10 ^ Z.of_nat 2)) with 100.
  pose proof (Qfloor_le (Qabs x * 100 + (1 # 2))) as X1.
  pose proof (Qlt_floor (Qabs x * 100 + (1 # 2))) as X2.
  pose proof (Qfloor_le (Qabs y * 100 + (1 # 2))) as Y1.
  pose proof (Qlt_floor (Qabs y * 100 + (1 # 2))) as Y2.
  set (a := Qfloor (Qabs x * 100 + (1 # 2))) in *.
  set (b := Qfloor (Qabs y * 100 + (1 # 2))) in *.
  rewrite inject_Z_plus in X2, Y2. change (inject_Z 1) with 1 in X2, Y2.
  assert (Z2 : forall z : Z, - (2) < inject_Z z < 2 -> (Z.abs z <= 1)%Z).
  { intros z [L U]. change (- (2)) with (inject_Z (-2)) in L.
    change 2 with (inject_Z 2) in U. rewrite <- Zlt_Qlt in L, U. lia. }
  apply Z2.
  destruct (Qltb y 0) eqn:SY; destruct (Qltb x 0) eqn:SX;
    [apply Qltb_true in SY | apply Qltb_true in SY
     | apply Qltb_false in SY | apply Qltb_false in SY];
    [apply Qltb_true in SX | apply Qltb_false in SX
     | apply Qltb_true in SX | apply Qltb_false in SX];
    unfold Zminus; rewrite ?inject_Z_plus, ?inject_Z_opp;
    destruct (Qabs_cases x) as [[? Ax]|[? Ax]];
    destruct (Qabs_cases y) as [[? Ay]|[? Ay]];
    rewrite Ax in X1, X2; rewrite Ay in Y1, Y2; lra.
Qed.


(** The client's statistics for two numbers, step by step. *)
Lemma uhi64Of_numbers (u r U R D : Q) :
  JS64.toDouble u = Some U -> JS64.toDouble r = Some R ->
  JS64.toDouble (U - R) = Some D -> Qabs D <= 3 * 2 ^ 42 ->
  doubleDifference (Ok (Some u)) (Ok (Some r)) = Some D /\
  uhi64Of (Ok (Some u)) (Ok (Some r)) = Some (inr (JS.toFixedQ 2 D)).
Proof.
  intros HU HR HD B.
  unfold doubleDifference, uhi64Of, JS64.uhi, JS64.evaluated, JS64.minus.
  rewrite HU, HR. cbn [option_map JS.toNumber]. rewrite HD. cbn [option_map].
  split; [reflexivity|]. unfold JS64.toFixed.
  destruct (Qle_bool _ (Qabs D)) eqn:L; [|reflexivity].
  exfalso. apply Qle_bool_iff in L.
  change (inject_Z (10 ^ 21)) with (1000000000000000000000 # 1) in L.
  change (2 ^ 42) with (4398046511104 # 1) in B. lra.
Qed.




(** The exact model and the doubles: for two means of magnitude at most [M],
    with [1 <= M <= 2^42], the client's difference is a number within
    [M * 2^-50] of the exact difference, so the label of the exact model and
    the label the client shows are the same number of hundredths or
    neighbouring ones. *)
Theorem double_uhi_near_exact (u r M : Q) :
  1 <= M -> M <= 2 ^ 42 -> Qabs u <= M -> Qabs r <= M ->
  exists d,
    doubleDifference (Ok (Some u)) (Ok (Some r)) = Some d /\
    Qabs (d - (u - r)) <= M * 2 ^ (-50) /\
    uhi64Of (Ok (Some u)) (Ok (Some r)) = Some (inr (JS.toFixedQ 2 d)) /\
    UHI.uhi (JS.evaluated (Ok (Some u))) (JS.evaluated (Ok (Some r)))
    = inr (JS.toFixedQ 2 (u - r)) /\
    (Z.abs (fixedUnits 2 d - fixedUnits 2 (u - r)) <= 1)%Z.
Proof.
  intros M1 M2 Bu Br.
  destruct (double_difference_near u r M M1 M2 Bu Br)
    as (U & R & D & TU & TR & TD & N & B).
  assert (B3 : Qabs D <= 3 * 2 ^ 42).
  { change (2 ^ 42) with (4398046511104 # 1) in *. lra. }
  destruct (uhi64Of_numbers u r U R D TU TR TD B3) as [A1 A2].
  exists D. repeat (split; [assumption || reflexivity|]).
  apply fixedUnits_close.
  change (2 ^ (-50)) with (1 # 1125899906842624) in N.
  change (2 ^ 42) with (4398046511104 # 1) in M2.
  apply Qle_lt_trans with (M * (1 # 1125899906842624)); [exact N|lra].
Qed.

Lemma double_uhi_near_exact_witness :
  exists d,
    doubleDifference (Ok (Some 32.425)) (Ok (Some 25.3)) = Some d /\
    Qabs (d - (32.425 - 25.3)) <= 64 * 2 ^ (-50) /\
    uhi64Of (Ok (Some 32.425)) (Ok (Some 25.3)) = Some (inr "7.12"%string) /\
    UHI.uhi (JS.evaluated (Ok (Some 32.425))) (JS.evaluated (Ok (Some 25.3)))
    = inr "7.13"%string.
Proof.
  destruct (double_uhi_near_exact 32.425 25.3 64) as (d & A1 & A2 & _ & _ & _);
    [apply Qle_bool_iff; vm_compute; reflexivity ..|].
  exists d. split; [exact A1|]. split; [exact A2|].
  split; vm_compute; reflexivity.
Defined.

(** ** Band transformer: the LST composite *)

Lemma lookup_app_none {A : Type} (k : string) (l l' : list (string * A)) :
  lookup k l = None -> lookup k (l ++ l') = lookup k l'.
Proof.
  induction l as [|[k' a] l IH]; simpl; [reflexivity|].
  destruct (String.eqb k k'); [discriminate|exact IH].
Qed.

Lemma hasBand_false (name : string) (img : Image) :
  ee.hasBand name img = false -> lookup name img = None.
Proof. unfold ee.hasBand. destruct (lookup name img); [discriminate|reflexivity]. Qed.

Lemma hasBand_true (name : string) (img : Image) :
  ee.hasBand name img = true -> exists r, lookup name img = Some r.
Proof. unfold ee.hasBand. destruct (lookup name img) as [r|]; [eauto|discriminate]. Qed.

Lemma lstRasterOf_pixel (r : Raster) (p : Pixel) :
  lstRasterOf r p = option_map decodeLST (r p).
Proof. unfold lstRasterOf, ee.pointwise. destruct (r p); reflexivity. Qed.

Lemma calculateLST_ok (image : Image) (r : Raster) :
  lookup "ST_B10" image = Some r ->
  ee.hasBand "LST" image = false ->
  UHI.calculateLST image = Ok (image ++ [("LST"%string, lstRasterOf r)]).
Proof.
  intros Hr Hl. unfold UHI.calculateLST, ee.select. rewrite Hr.
  unfold bind, ee.multiply, ee.add, ee.subtract, ee.mapBands, ee.rename.
  cbn [List.map fst snd ee.addBands]. rewrite Hl. reflexivity.
Qed.

Lemma wellFormed_bands (s : Scene) :
  wellFormed s = true ->
  (exists r, lookup "ST_B10" (bands s) = Some r) /\
  ee.hasBand "SR_B4" (bands s) = true /\
  ee.hasBand "SR_B5" (bands s) = true /\
  ee.hasBand "SR_B6" (bands s) = true /\
  ee.hasBand "LST" (bands s) = false.
Proof.
  unfold wellFormed. rewrite !andb_true_iff, negb_true_iff.
  intros [[[[H1 H2] H3] H4] H5].
  split; [apply hasBand_true; exact H1|]. repeat split; assumption.
Qed.

Lemma sceneLSTRaster_pixel (s : Scene) (p : Pixel) :
  sceneLSTRaster s p = option_map decodeLST (pixelAt (bands s) "ST_B10" p).
Proof.
  unfold sceneLSTRaster, pixelAt.
  destruct (lookup "ST_B10" (bands s)) as [r|]; [apply lstRasterOf_pixel|reflexivity].
Qed.

(** [lstCollection.select('LST')]: one single-band image per scene. *)
Lemma lstCollection_select (scenes : list Scene) :
  forallb wellFormed scenes = true ->
  exists col,
    UHI.lstCollection scenes = Ok col /\
    ImageCollection.select "LST" col
    = Ok (List.map (fun s => [("LST"%string, sceneLSTRaster s)]) scenes).
Proof.
  unfold UHI.lstCollection, ImageCollection.select.
  induction scenes as [|s scenes IH]; intros W.
  - exists []. split; reflexivity.
  - simpl in W. apply andb_true_iff in W. destruct W as [Ws W].
    destruct (IH W) as (col & Hc & Hs).
    destruct (wellFormed_bands s Ws) as ((r & Hr) & _ & _ & _ & Hl).
    exists ((bands s ++ [("LST"%string, lstRasterOf r)]) :: col).
    cbn [List.map mapM]. rewrite (calculateLST_ok _ _ Hr Hl), Hc.
    split; [reflexivity|].
    cbn [mapM bind]. unfold ee.select at 1.
    rewrite (lookup_app_none _ _ _ (hasBand_false _ _ Hl)), lookup_same.
    cbn [bind]. rewrite Hs. cbn [bind].
    unfold sceneLSTRaster. rewrite Hr. reflexivity.
Qed.

Lemma valuesAt_lst (scenes : list Scene) (p : Pixel) :
  ImageCollection.valuesAt "LST"
    (List.map (fun s => [("LST"%string, sceneLSTRaster s)]) scenes) p
  = sceneLSTs scenes p.
Proof.
  unfold ImageCollection.valuesAt, sceneLSTs.
  induction scenes as [|s scenes IH]; [reflexivity|].
  cbn [List.map flat_map]. rewrite IH, pixelAt_single, sceneLSTRaster_pixel.
  destruct (pixelAt (bands s) "ST_B10" p); reflexivity.
Qed.

(** The band of the LST composite: clipped per-pixel mean of the per-scene
    LST values; an empty collection leaves an image without bands. *)
Lemma lstMean_composite (scenes : list Scene) (javaBounds : Geometry) :
  forallb wellFormed scenes = true ->
  exists l,
    (col <- UHI.lstCollection scenes ;; UHI.lstMean col javaBounds) = Ok l /\
    (scenes = [] -> l = []) /\
    (scenes <> [] -> exists r, l = [("LST"%string, r)]) /\
    forall p,
      pixelAt l "LST" p =
      if covers javaBounds p then meanReducer (sceneLSTs scenes p) else None.
Proof.
  intros W. destruct (lstCollection_select scenes W) as (col & Hc & Hs).
  rewrite Hc. cbn [bind]. unfold UHI.lstMean. rewrite Hs. cbn [bind].
  eexists. split; [reflexivity|].
  destruct scenes as [|s scenes].
  - split; [reflexivity|]. split; [congruence|].
    intros p. cbn. destruct (covers javaBounds p); reflexivity.
  - split; [discriminate|]. split; [intros _; eexists; reflexivity|].
    intros p.
    cbn [List.map ImageCollection.mean ImageCollection.reduce ee.clip ee.mapBands fst snd].
    rewrite pixelAt_single.
    destruct (covers javaBounds p); [|reflexivity].
    f_equal. apply (valuesAt_lst (s :: scenes) p).
Qed.

(** ** Band transformer: indices on the median composite *)

Lemma lookup_reduce (red : list Q -> option Q) (first : Image) (rest : list Image)
  (name : string) :
  lookup name (ImageCollection.reduce red (first :: rest)) =
  if ee.hasBand name first
  then Some (fun p => red (ImageCollection.valuesAt name (first :: rest) p))
  else None.
Proof.
  unfold ImageCollection.reduce, ee.hasBand.
  generalize (first :: rest) as col. intros col.
  induction first as [|[k r] first IH]; [reflexivity|].
  cbn [List.map lookup fst snd].
  destruct (String.eqb_spec name k) as [->|N]; [reflexivity|exact IH].
Qed.

Lemma ndRaster_formula (a b : Raster) (p : Pixel) (x : Q) :
  eeImage.ndRaster a b p = Some x ->
  exists u w, a p = Some u /\ b p = Some w /\ x = (u - w) / (u + w).
Proof.
  unfold eeImage.ndRaster.
  destruct (a p) as [u|]; [|discriminate].
  destruct (b p) as [w|]; [|discriminate].
  destruct (Qltb u 0 || Qltb w 0)%bool; [discriminate|].
  destruct (Qeq_bool (u + w) 0); [discriminate|].
  intros H. injection H as <-. eauto.
Qed.

Lemma indices_on_median (scenes : list Scene) :
  forallb wellFormed scenes = true ->
  scenes <> [] ->
  UHI.ndvi (UHI.median scenes)
  = Ok [("NDVI"%string,
         eeImage.ndRaster
           (fun q => medianReducer (bandValues "SR_B5" scenes q))
           (fun q => medianReducer (bandValues "SR_B4" scenes q)))] /\
  UHI.ndbi (UHI.median scenes)
  = Ok [("NDBI"%string,
         eeImage.ndRaster
           (fun q => medianReducer (bandValues "SR_B6" scenes q))
           (fun q => medianReducer (bandValues "SR_B5" scenes q)))].
Proof.
  intros W NE. destruct scenes as [|s scenes]; [congruence|].
  simpl in W. apply andb_true_iff in W. destruct W as [Ws _].
  destruct (wellFormed_bands s Ws) as (_ & H4 & H5 & H6 & _).
  unfold UHI.ndvi, UHI.ndbi, UHI.median, ImageCollection.median,
    eeImage.normalizedDifference, bandValues.
  cbn [List.map]. rewrite !lookup_reduce, H4, H5, H6.
  split; reflexivity.
Qed.

Lemma insertSorted_length (x : Q) (s : list Q) :
  List.length (insertSorted x s) = S (List.length s).
Proof.
  induction s as [|y s IH]; cbn [insertSorted]; [reflexivity|].
  destruct (Qle_bool x y); cbn [List.length]; [reflexivity|]. rewrite IH. reflexivity.
Qed.

(** *** The median reducer returns a median *)

Lemma sortQ_length (l : list Q) : List.length (sortQ l) = List.length l.
Proof.
  unfold sortQ. induction l as [|x l IH]; [reflexivity|].
  cbn [fold_right]. rewrite insertSorted_length. cbn [List.length]. rewrite IH. reflexivity.
Qed.

Lemma insertSorted_Forall (P : Q -> Prop) (x : Q) (s : list Q) :
  P x -> Forall P s -> Forall P (insertSorted x s).
Proof.
  intros Hx Hs. induction Hs as [|y s Hy Hs IH]; cbn [insertSorted].
  - constructor; [exact Hx|constructor].
  - destruct (Qle_bool x y).
    + constructor; [exact Hx|]. constructor; assumption.
    + constructor; assumption.
Qed.

Lemma Qle_bool_total (x y : Q) : Qle_bool x y = false -> y <= x.
Proof.
  intros H. apply Qlt_le_weak. apply Qnot_le_lt. intros L.
  apply Qle_bool_iff in L. congruence.
Qed.

Lemma insertSorted_sorted (x : Q) (s : list Q) :
  StronglySorted Qle s -> StronglySorted Qle (insertSorted x s).
Proof.
  induction 1 as [|y s Hs IH Hy]; cbn [insertSorted].
  - constructor; constructor.
  - destruct (Qle_bool x y) eqn:E.
    + apply Qle_bool_iff in E. constructor.
      * constructor; assumption.
      * constructor; [exact E|].
        apply (Forall_impl (Qle x)) with (2 := Hy). intros z Hz.
        apply (Qle_trans _ y); assumption.
    + constructor; [exact IH|].
      apply insertSorted_Forall; [apply Qle_bool_total; exact E|exact Hy].
Qed.

Lemma sortQ_sorted (l : list Q) : StronglySorted Qle (sortQ l).
Proof.
  unfold sortQ. induction l as [|x l IH]; cbn [fold_right].
  - constructor.
  - apply insertSorted_sorted. exact IH.
Qed.

Lemma countLe_cons (x m : Q) (s : list Q) :
  countLe (x :: s) m = ((if Qle_bool x m then 1 else 0) + countLe s m)%nat.
Proof. unfold countLe. cbn [filter]. destruct (Qle_bool x m); reflexivity. Qed.

Lemma countGe_cons (x m : Q) (s : list Q) :
  countGe (x :: s) m = ((if Qle_bool m x then 1 else 0) + countGe s m)%nat.
Proof. unfold countGe. cbn [filter]. destruct (Qle_bool m x); reflexivity. Qed.

Lemma insertSorted_counts (x m : Q) (s : list Q) :
  countLe (insertSorted x s) m = countLe (x :: s) m /\
  countGe (insertSorted x s) m = countGe (x :: s) m.
Proof.
  induction s as [|y s [IL IG]]; cbn [insertSorted]; [split; reflexivity|].
  destruct (Qle_bool x y); [split; reflexivity|].
  rewrite (countLe_cons y), (countGe_cons y), IL, IG.
  rewrite !countLe_cons, !countGe_cons. split; lia.
Qed.

Lemma sortQ_counts (m : Q) (l : list Q) :
  countLe (sortQ l) m = countLe l m /\ countGe (sortQ l) m = countGe l m.
Proof.
  unfold sortQ. induction l as [|x l [IL IG]]; cbn [fold_right]; [split; reflexivity|].
  destruct (insertSorted_counts x m (fold_right insertSorted [] l)) as [L G].
  rewrite L, G, !countLe_cons, !countGe_cons, IL, IG. split; reflexivity.
Qed.

Lemma countGe_all (x : Q) (s : list Q) :
  Forall (Qle x) s -> countGe s x = List.length s.
Proof.
  induction 1 as [|y s Hy _ IH]; [reflexivity|].
  rewrite countGe_cons, IH. apply Qle_bool_iff in Hy. rewrite Hy. reflexivity.
Qed.

Lemma sorted_counts_at (s : list Q) (k : nat) :
  StronglySorted Qle s ->
  (k < List.length s)%nat ->
  (k + 1 <= countLe s (nth k s 0%Q))%nat /\
  (List.length s - k <= countGe s (nth k s 0%Q))%nat.
Proof.
  intros H. revert k. induction H as [|x s Hs IH Hx]; intros k Hk.
  - cbn in Hk. lia.
  - destruct k as [|k]; cbn [nth].
    + rewrite countLe_cons, countGe_cons.
      assert (R : Qle_bool x x = true) by (apply Qle_bool_iff; apply Qle_refl).
      rewrite R, (countGe_all x s Hx). cbn [List.length]. split; lia.
    + cbn [List.length] in Hk.
      assert (Hk' : (k < List.length s)%nat) by lia.
      destruct (IH k Hk') as [L G].
      assert (X : Qle_bool x (nth k s 0) = true).
      { apply Qle_bool_iff. rewrite Forall_forall in Hx. apply Hx.
        apply nth_In. exact Hk'. }
      rewrite countLe_cons, countGe_cons, X. cbn [List.length].
      split; [lia|]. destruct (Qle_bool (nth k s 0) x); lia.
Qed.

Lemma sorted_nth_mono (s : list Q) (i j : nat) :
  StronglySorted Qle s ->
  (i <= j)%nat -> (j < List.length s)%nat ->
  nth i s 0 <= nth j s 0.
Proof.
  intros H. revert i j. induction H as [|x s Hs IH Hx]; intros i j Hij Hj.
  - cbn in Hj. lia.
  - cbn [List.length] in Hj. destruct j as [|j].
    + assert (i = 0%nat) by lia. subst i. apply Qle_refl.
    + destruct i as [|i]; cbn [nth].
      * rewrite Forall_forall in Hx. apply Hx. apply nth_In. lia.
      * apply IH; lia.
Qed.

Lemma countLe_mono (a m : Q) (s : list Q) :
  a <= m -> (countLe s a <= countLe s m)%nat.
Proof.
  intros H. induction s as [|x s IH]; [apply Nat.le_refl|].
  rewrite !countLe_cons.
  destruct (Qle_bool x a) eqn:A; [|destruct (Qle_bool x m); lia].
  apply Qle_bool_iff in A.
  assert (M : Qle_bool x m = true) by (apply Qle_bool_iff; apply (Qle_trans _ a); assumption).
  rewrite M. lia.
Qed.

Lemma countGe_mono (b m : Q) (s : list Q) :
  m <= b -> (countGe s b <= countGe s m)%nat.
Proof.
  intros H. induction s as [|x s IH]; [apply Nat.le_refl|].
  rewrite !countGe_cons.
  destruct (Qle_bool b x) eqn:B; [|destruct (Qle_bool m x); lia].
  apply Qle_bool_iff in B.
  assert (M : Qle_bool m x = true) by (apply Qle_bool_iff; apply (Qle_trans _ b); assumption).
  rewrite M. lia.
Qed.

(** Whatever the order of its inputs, the value the median reducer returns
    has at least half of the inputs on either side. *)
Lemma medianReducer_isMedian (vs : list Q) (m : Q) :
  medianReducer vs = Some m -> isMedian vs m.
Proof.
  intros H. destruct vs as [|v vs]; [discriminate|].
  unfold medianReducer in H.
  pose proof (sortQ_sorted (v :: vs)) as S.
  pose proof (sortQ_length (v :: vs)) as L.
  destruct (sortQ_counts m (v :: vs)) as [CL CG].
  unfold isMedian. rewrite <- CL, <- CG, <- L.
  set (s := sortQ (v :: vs)) in *. set (n := List.length s) in *.
  assert (N : (0 < n)%nat) by (rewrite L; cbn [List.length]; lia).
  pose proof (Nat.div_mod_eq n 2) as D.
  pose proof (Nat.mod_upper_bound n 2 ltac:(lia)) as U.
  destruct (Nat.even n) eqn:E.
  - apply Nat.even_spec in E. destruct E as [h Eh].
    injection H as Hm.
    assert (K1 : (n / 2 - 1 < n)%nat) by lia.
    assert (K2 : (n / 2 < n)%nat) by lia.
    pose proof (sorted_nth_mono s (n / 2 - 1) (n / 2) S ltac:(lia) K2) as AB.
    destruct (sorted_counts_at s (n / 2 - 1) S K1) as [LA _].
    destruct (sorted_counts_at s (n / 2) S K2) as [_ GB].
    set (a := nth (n / 2 - 1) s 0) in *. set (b := nth (n / 2) s 0) in *.
    assert (M : m = (a + b) / 2) by (symmetry; exact Hm).
    clear Hm. subst m.
    assert (A : a <= (a + b) / 2) by (apply Qle_shift_div_l; lra).
    assert (B : (a + b) / 2 <= b) by (apply Qle_shift_div_r; lra).
    pose proof (countLe_mono a ((a + b) / 2) s A).
    pose proof (countGe_mono b ((a + b) / 2) s B).
    split; lia.
  - injection H as Hm.
    assert (O : Nat.odd n = true) by (rewrite <- Nat.negb_even, E; reflexivity).
    apply Nat.odd_spec in O. destruct O as [h Oh].
    assert (K : (n / 2 < n)%nat) by lia.
    destruct (sorted_counts_at s (n / 2) S K) as [LA GA].
    assert (M : m = nth (n / 2) s 0) by (symmetry; exact Hm).
    clear Hm. subst m.
    split; lia.
Qed.

(** C2. Per scene the LST band is the affine map
    [thermal * 0.00341802 + 149.0 - 273.15] of the thermal band; the LST
    composite is, inside the boundary, the per-pixel arithmetic mean (sum
    over count) of the per-scene LST values of all qualifying scenes; NDVI
    and NDBI are the normalized differences of per-pixel medians of the
    reflectance bands of the same scenes, a median being a value with at
    least half of the inputs on either side.  On three scenes given in an
    unsorted order the LST composite is their mean and not a median, and the
    indices come from the medians and not from the means. *)
Theorem composites_mean_and_median (LC08 LC09 : list Scene) (javaBounds : Geometry) :
  forallb wellFormed (Run.landsat LC08 LC09 javaBounds) = true ->
  (forall s, In s (Run.landsat LC08 LC09 javaBounds) ->
     exists img,
       UHI.calculateLST (bands s) = Ok img /\
       forall p, pixelAt img "LST" p = option_map decodeLST (pixelAt (bands s) "ST_B10" p)) /\
  (exists l,
     Run.lstMean LC08 LC09 javaBounds = Ok l /\
     forall p,
       pixelAt l "LST" p =
       (if covers javaBounds p
        then meanReducer (sceneLSTs (Run.landsat LC08 LC09 javaBounds) p)
        else None) /\
       (forall v, pixelAt l "LST" p = Some v ->
          sceneLSTs (Run.landsat LC08 LC09 javaBounds) p <> [] /\
          v * Qlen (sceneLSTs (Run.landsat LC08 LC09 javaBounds) p)
          == Qsum (sceneLSTs (Run.landsat LC08 LC09 javaBounds) p))) /\
  (Run.landsat LC08 LC09 javaBounds <> [] ->
   exists nv nb,
     Run.ndvi LC08 LC09 javaBounds = Ok nv /\
     Run.ndbi LC08 LC09 javaBounds = Ok nb /\
     forall p,
       (forall x, pixelAt nv "NDVI" p = Some x ->
          exists nir red,
            medianReducer (bandValues "SR_B5" (Run.landsat LC08 LC09 javaBounds) p) = Some nir /\
            medianReducer (bandValues "SR_B4" (Run.landsat LC08 LC09 javaBounds) p) = Some red /\
            isMedian (bandValues "SR_B5" (Run.landsat LC08 LC09 javaBounds) p) nir /\
            isMedian (bandValues "SR_B4" (Run.landsat LC08 LC09 javaBounds) p) red /\
            x = (nir - red) / (nir + red)) /\
       (forall y, pixelAt nb "NDBI" p = Some y ->
          exists swir nir,
            medianReducer (bandValues "SR_B6" (Run.landsat LC08 LC09 javaBounds) p) = Some swir /\
            medianReducer (bandValues "SR_B5" (Run.landsat LC08 LC09 javaBounds) p) = Some nir /\
            isMedian (bandValues "SR_B6" (Run.landsat LC08 LC09 javaBounds) p) swir /\
            isMedian (bandValues "SR_B5" (Run.landsat LC08 LC09 javaBounds) p) nir /\
            y = (swir - nir) / (swir + nir))) /\
  (oQeq (meanReducer (sceneLSTs threeScenes (px 0))) (Some 26) /\
   oQeq (medianReducer (sceneLSTs threeScenes (px 0))) (Some 22) /\
   oQeq (pixelOf (Run.lstMean threeScenes [] [(px 0, 1)]) "LST" (px 0)) (Some 26) /\
   oQeq (meanReducer (bandValues "SR_B5" threeScenes (px 0))) (Some 40) /\
   oQeq (medianReducer (bandValues "SR_B5" threeScenes (px 0))) (Some 20) /\
   oQeq (pixelOf (Run.ndvi threeScenes [] [(px 0, 1)]) "NDVI" (px 0)) (Some (1 # 3)) /\
   oQeq (pixelOf (Run.ndbi threeScenes [] [(px 0, 1)]) "NDBI" (px 0)) (Some (1 # 5))) /\
  (oQeq (pixelOf (Run.lstMean shuffledScenes [] [(px 0, 1)]) "LST" (px 0)) (Some 26) /\
   ~ isMedian (sceneLSTs shuffledScenes (px 0)) 26 /\
   isMedian (sceneLSTs shuffledScenes (px 0)) 22 /\
   oQeq (medianReducer (bandValues "SR_B5" shuffledScenes (px 0))) (Some 20) /\
   isMedian (bandValues "SR_B5" shuffledScenes (px 0)) 20 /\
   ~ isMedian (bandValues "SR_B5" shuffledScenes (px 0)) 40 /\
   ~ isMedian (bandValues "SR_B5" shuffledScenes (px 0)) 10 /\
   oQeq (pixelOf (Run.ndvi shuffledScenes [] [(px 0, 1)]) "NDVI" (px 0)) (Some (1 # 3)) /\
   oQeq (pixelOf (Run.ndbi shuffledScenes [] [(px 0, 1)]) "NDBI" (px 0)) (Some (1 # 5))).
Proof.
  intros W. split; [|split; [|split; [|split]]].
  - intros s Hs.
    rewrite forallb_forall in W. specialize (W s Hs).
    destruct (wellFormed_bands s W) as ((r & Hr) & _ & _ & _ & Hl).
    eexists. split; [apply (calculateLST_ok _ _ Hr Hl)|].
    intros p. unfold pixelAt at 1.
    rewrite (lookup_app_none _ _ _ (hasBand_false _ _ Hl)), lookup_same.
    rewrite (pixelAt_lookup _ _ _ p Hr). apply lstRasterOf_pixel.
  - destruct (lstMean_composite _ javaBounds W) as (l & Hl & _ & _ & Hp).
    exists l. split; [exact Hl|]. intros p. split; [apply Hp|].
    intros v Hv. rewrite Hp in Hv.
    destruct (covers javaBounds p); [|discriminate].
    destruct (sceneLSTs (Run.landsat LC08 LC09 javaBounds) p) as [|x xs] eqn:E;
      [discriminate|].
    split; [discriminate|].
    cbn [meanReducer] in Hv. injection Hv as <-.
    assert (P : 0 < Qlen (x :: xs)).
    { unfold Qlen. cbn [List.length]. rewrite Nat2Z.inj_succ.
      change 0 with (inject_Z 0). rewrite <- Zlt_Qlt. lia. }
    cbn [Qsum]. field. intros Z. rewrite Z in P. apply (Qlt_irrefl 0 P).
  - intros NE. destruct (indices_on_median _ W NE) as [Hv Hb].
    eexists. eexists. split; [exact Hv|]. split; [exact Hb|].
    intros p. rewrite !pixelAt_single. split.
    + intros x Hx. apply ndRaster_formula in Hx.
      destruct Hx as (nir & red & Hn & Hr & Hx).
      exists nir, red. split; [exact Hn|]. split; [exact Hr|].
      split; [apply medianReducer_isMedian; exact Hn|].
      split; [apply medianReducer_isMedian; exact Hr|exact Hx].
    + intros y Hy. apply ndRaster_formula in Hy.
      destruct Hy as (swir & nir & Hs & Hn & Hy).
      exists swir, nir. split; [exact Hs|]. split; [exact Hn|].
      split; [apply medianReducer_isMedian; exact Hs|].
      split; [apply medianReducer_isMedian; exact Hn|exact Hy].
  - repeat split; vm_compute; reflexivity.
  - split; [vm_compute; reflexivity|].
    split; [intros [_ G]; vm_compute in G; lia|].
    split; [split; vm_compute; lia|].
    split; [vm_compute; reflexivity|].
    split; [split; vm_compute; lia|].
    split; [intros [_ G]; vm_compute in G; lia|].
    split; [intros [G _]; vm_compute in G; lia|].
    split; vm_compute; reflexivity.
Qed.

Lemma composites_mean_and_median_witness :
  (exists l,
     Run.lstMean shuffledScenes [] [(px 0, 1)] = Ok l /\
     forall v, pixelAt l "LST" (px 0) = Some v ->
       v * Qlen (sceneLSTs (Run.landsat shuffledScenes [] [(px 0, 1)]) (px 0))
       == Qsum (sceneLSTs (Run.landsat shuffledScenes [] [(px 0, 1)]) (px 0))) /\
  (exists nv,
     Run.ndvi shuffledScenes [] [(px 0, 1)] = Ok nv /\
     forall x, pixelAt nv "NDVI" (px 0) = Some x ->
       exists nir red,
         isMedian (bandValues "SR_B5" (Run.landsat shuffledScenes [] [(px 0, 1)]) (px 0)) nir /\
         isMedian (bandValues "SR_B4" (Run.landsat shuffledScenes [] [(px 0, 1)]) (px 0)) red /\
         x = (nir - red) / (nir + red)).
Proof.
  assert (W : forallb wellFormed (Run.landsat shuffledScenes [] [(px 0, 1)]) = true)
    by (vm_compute; reflexivity).
  assert (NE : Run.landsat shuffledScenes [] [(px 0, 1)] <> [])
    by (vm_compute; discriminate).
  destruct (composites_mean_and_median shuffledScenes [] [(px 0, 1)] W)
    as (_ & (l & Hl & Hp) & I & _).
  split.
  - exists l. split; [exact Hl|]. intros v Hv.
    destruct (Hp (px 0)) as [_ M]. apply (M v Hv).
  - destruct (I NE) as (nv & nb & Hv & _ & Hx).
    exists nv. split; [exact Hv|]. intros x E.
    destruct (Hx (px 0)) as [N _].
    destruct (N x E) as (nir & red & _ & _ & M1 & M2 & F).
    exists nir, red. split; [exact M1|]. split; [exact M2|exact F].
Defined.

(** ** Empty scene set *)

Lemma cityLST_no_bands (buffer : Geometry) :
  isOk (d <- UHI.cityLST [] buffer ;; eeImage.get "LST" d) = false.
Proof.
  unfold UHI.cityLST, eeImage.reduceRegion.
  destruct (_ <? _)%Z; reflexivity.
Qed.

(** C5 (as amended). When no scene passes the filters, no statistic is
    given a value and none is reported: the urban and the rural mean and the
    UHI raster fail on the server, so the callbacks receive [undefined];
    every city mean fails; the callbacks stop with an uncaught TypeError
    right after the heading 'Average Urban LST:', before any temperature or
    UHI label.  So nothing is shown as undefined, and nothing as zero or NaN
    either; the local string [uhi] is 'NaN' but is never displayed.  The
    panel stops at the same place whenever the urban mean is not a number,
    be it a failure or a null. *)
Theorem empty_scene_set_gives_no_value
  (LC08 LC09 : list Scene) (javaBounds : Geometry) (pointBuffer : Q * Q -> Q -> Geometry) :
  Run.landsat LC08 LC09 javaBounds = [] ->
  (Run.urbanTempLST LC08 LC09 javaBounds = Err (BandNotFound "SR_B6") /\
   Run.ruralTempLST LC08 LC09 javaBounds = Err (BandNotFound "SR_B5") /\
   JS.evaluated (Run.urbanTempLST LC08 LC09 javaBounds) = JS.JUndefined /\
   JS.evaluated (Run.ruralTempLST LC08 LC09 javaBounds) = JS.JUndefined /\
   isOk (Run.uhiIntensity LC08 LC09 javaBounds) = false /\
   Forall (fun printed => isOk (snd printed) = false)
     (Run.citiesPrinted LC08 LC09 javaBounds pointBuffer) /\
   Run.statsPanel LC08 LC09 javaBounds =
     ([ "URBAN HEAT ISLAND STATISTICS"; "Analysis Period:"; "2024-06-01 to 2024-09-30";
        UHI.separator; "Average Urban LST:" ]%string,
      inl (JS.TypeError "Cannot read properties of undefined (reading 'toFixed')")) /\
   reportedUHI (Run.statsPanel LC08 LC09 javaBounds) = None /\
   ~ reportsStatistics (Run.statsPanel LC08 LC09 javaBounds) /\
   UHI.uhi (JS.evaluated (Run.urbanTempLST LC08 LC09 javaBounds))
     (JS.evaluated (Run.ruralTempLST LC08 LC09 javaBounds)) = inr "NaN"%string) /\
  (forall urban rural,
      (forall u, urban <> Ok (Some u)) ->
      exists e,
        UHI.statsPanel urban rural =
        ([ "URBAN HEAT ISLAND STATISTICS"; "Analysis Period:"; "2024-06-01 to 2024-09-30";
           UHI.separator; "Average Urban LST:" ]%string, inl e) /\
        reportedUHI (UHI.statsPanel urban rural) = None /\
        ~ reportsStatistics (UHI.statsPanel urban rural)).
Proof.
  intros E.
  assert (U : Run.urbanTempLST LC08 LC09 javaBounds = Err (BandNotFound "SR_B6")).
  { unfold Run.urbanTempLST, Run.urbanTemp, Run.urbanLST, Run.urbanMask, Run.lstMean,
      Run.lstCollection, Run.ndbi, Run.ndvi, Run.median.
    rewrite E. reflexivity. }
  assert (R : Run.ruralTempLST LC08 LC09 javaBounds = Err (BandNotFound "SR_B5")).
  { unfold Run.ruralTempLST, Run.ruralTemp, Run.ruralLST, Run.ruralMask, Run.lstMean,
      Run.lstCollection, Run.ndbi, Run.ndvi, Run.median.
    rewrite E. reflexivity. }
  split.
  - split; [exact U|]. split; [exact R|].
    unfold Run.statsPanel. rewrite U, R.
    split; [reflexivity|]. split; [reflexivity|].
    split.
    { unfold Run.uhiIntensity, Run.urbanMask, Run.lstMean, Run.lstCollection, Run.ndbi,
        Run.ndvi, Run.median.
      rewrite E. reflexivity. }
    split.
    { unfold Run.citiesPrinted, Run.lstMean, Run.lstCollection. rewrite E.
      unfold UHI.citiesPrinted, UHI.cities.
      cbn [List.map snd UHI.lstCollection mapM bind UHI.lstMean ImageCollection.select
             ImageCollection.mean ImageCollection.reduce ee.clip ee.mapBands].
      repeat constructor; apply cityLST_no_bands. }
    split; [reflexivity|]. split; [reflexivity|].
    split; [|reflexivity].
    unfold reportsStatistics. cbn. discriminate.
  - intros urban rural H.
    destruct urban as [[u|]|e]; [exfalso; apply (H u); reflexivity| |];
      destruct rural as [[r|]|e']; eexists;
      (split; [reflexivity|]; split; [reflexivity|];
       unfold reportsStatistics; cbn; discriminate).
Qed.

Lemma empty_scene_set_gives_no_value_witness :
  Run.urbanTempLST [] [] syntheticBounds = Err (BandNotFound "SR_B6") /\
  isOk (Run.uhiIntensity [] [] syntheticBounds) = false /\
  reportedUHI (Run.statsPanel [] [] syntheticBounds) = None /\
  ~ reportsStatistics (Run.statsPanel [] [] syntheticBounds).
Proof.
  destruct (empty_scene_set_gives_no_value [] [] syntheticBounds
              (fun _ _ => syntheticBounds))
    as ((U & _ & _ & _ & I & _ & _ & P & N & _) & _).
  - reflexivity.
  - split; [exact U|]. split; [exact I|]. split; [exact P|exact N].
Defined.

(** The statement "every statistic is reported as undefined" fails on an
    empty scene set: the panel reports no statistic at all.  With both
    archives empty the callbacks die with a TypeError after five labels, the
    last being the heading of the urban mean, and the difference computed
    before is the string 'NaN'.  Had the platform answered null for the two
    means instead of failing, the callbacks would die at the same place, and
    the difference computed before would be the string '0.00'. *)
Lemma empty_scene_set_not_reported :
  ~ reportsStatistics (Run.statsPanel [] [] syntheticBounds) /\
  Run.statsPanel [] [] syntheticBounds =
    ([ "URBAN HEAT ISLAND STATISTICS"; "Analysis Period:"; "2024-06-01 to 2024-09-30";
       UHI.separator; "Average Urban LST:" ]%string,
     inl (JS.TypeError "Cannot read properties of undefined (reading 'toFixed')")) /\
  UHI.uhi (JS.evaluated (Run.urbanTempLST [] [] syntheticBounds))
    (JS.evaluated (Run.ruralTempLST [] [] syntheticBounds)) = inr "NaN"%string /\
  ~ reportsStatistics (UHI.statsPanel (Ok None) (Ok None)) /\
  UHI.statsPanel (Ok None) (Ok None) =
    ([ "URBAN HEAT ISLAND STATISTICS"; "Analysis Period:"; "2024-06-01 to 2024-09-30";
       UHI.separator; "Average Urban LST:" ]%string,
     inl (JS.TypeError "Cannot read properties of null (reading 'toFixed')")) /\
  UHI.uhi JS.JNull JS.JNull = inr "0.00"%string.
Proof.
  split; [unfold reportsStatistics; vm_compute; discriminate|].
  split; [vm_compute; reflexivity|].
  split; [vm_compute; reflexivity|].
  split; [unfold reportsStatistics; vm_compute; discriminate|].
  split; vm_compute; reflexivity.
Qed.

(** ** The per-pixel UHI raster *)

Lemma Qnonzero_zero : Qnonzero 0 = false.
Proof. reflexivity. Qed.

Lemma uhiIntensity_single (n k : string) (l m : Raster) (d : eeImage.Dictionary)
  (p : Pixel) :
  pixelOf (UHI.uhiIntensity [(n, l)] [(k, m)] d) "UHI_Intensity" p =
  if keeps [(k, m)] p
  then match l p, eeImage.get "LST" d with
       | Some v, Ok (Some rmean) => Some (v - rmean)
       | _, _ => None
       end
  else None.
Proof.
  unfold UHI.uhiIntensity, ee.where_, ee.not, ee.binop, ee.mapBands.
  cbn [List.map fst snd bind].
  destruct (eeImage.get "LST" d) as [[rmean|]|e]; cbn [bind eeImage.Number].
  - unfold ee.subtract, ee.updateMask, ee.binop, ee.mapBands.
    cbn [List.map fst snd bind ee.rename pixelOf]. rewrite pixelAt_single.
    unfold ee.updateMaskRaster, ee.pointwise, ee.whereRaster. cbn [keeps].
    destruct (m p) as [x|]; [|reflexivity].
    cbn [option_map].
    destruct (Qnonzero x); [|reflexivity].
    cbn [negb ofBool]. rewrite Qnonzero_zero.
    destruct (l p); reflexivity.
  - cbn [pixelOf]. destruct (keeps [(k, m)] p); [|reflexivity].
    destruct (l p); reflexivity.
  - cbn [pixelOf]. destruct (keeps [(k, m)] p); [|reflexivity].
    destruct (l p); reflexivity.
Qed.

Lemma select_single (col col' : list Image) :
  ImageCollection.select "LST" col = Ok col' ->
  Forall (fun img => exists r, img = [("LST"%string, r)]) col'.
Proof.
  unfold ImageCollection.select. revert col'.
  induction col as [|img col IH]; intros col' H.
  - injection H as <-. constructor.
  - cbn [mapM] in H. unfold ee.select at 1 in H.
    destruct (lookup "LST" img) as [r|]; [|discriminate].
    cbn [bind] in H.
    destruct (mapM (ee.select "LST") col) as [bs|e]; [|discriminate].
    cbn [bind] in H. injection H as <-.
    constructor; [eauto|]. apply IH. reflexivity.
Qed.

Lemma lstMean_shape (col : list Image) (javaBounds : Geometry) (l : Image) :
  UHI.lstMean col javaBounds = Ok l ->
  l = [] \/ exists r, l = [("LST"%string, r)].
Proof.
  unfold UHI.lstMean.
  destruct (ImageCollection.select "LST" col) as [col'|e] eqn:S; [|discriminate].
  apply select_single in S. cbn [bind]. intros H. injection H as <-.
  destruct S as [|img col' (r & ->) _]; [left; reflexivity|].
  right. eexists. reflexivity.
Qed.

Lemma urbanMask_shape (nb nv um : Image) (med : Image) :
  UHI.ndbi med = Ok nb -> UHI.ndvi med = Ok nv -> UHI.urbanMask nb nv = Ok um ->
  exists m, um = [("NDBI"%string, m)].
Proof.
  intros Hb Hv.
  destruct (ndvi_shape _ _ Hv) as (nir & red & _ & _ & ->).
  destruct (ndbi_shape _ _ Hb) as (swir & nir' & _ & _ & ->).
  intros H. injection H as <-. eexists. reflexivity.
Qed.

(** C6. The per-pixel UHI raster equals the LST composite minus the scalar
    rural region mean at every pixel of the urban mask, and is no-data at
    every other pixel (and wherever the composite or the rural mean is
    undefined). *)
Theorem uhi_raster_pixels (LC08 LC09 : list Scene) (javaBounds : Geometry) (p : Pixel) :
  pixelOf (Run.uhiIntensity LC08 LC09 javaBounds) "UHI_Intensity" p =
  match Run.urbanMask LC08 LC09 javaBounds with
  | Ok urban =>
      if keeps urban p
      then match pixelOf (Run.lstMean LC08 LC09 javaBounds) "LST" p,
                 Run.ruralTempLST LC08 LC09 javaBounds with
           | Some v, Ok (Some rmean) => Some (v - rmean)
           | _, _ => None
           end
      else None
  | Err _ => None
  end.
Proof.
  unfold Run.uhiIntensity, Run.ruralTempLST.
  destruct (Run.urbanMask LC08 LC09 javaBounds) as [um|e] eqn:HM.
  - assert (S : exists m, um = [("NDBI"%string, m)]).
    { unfold Run.urbanMask in HM.
      destruct (Run.ndbi LC08 LC09 javaBounds) as [nb|] eqn:Hb; [|discriminate].
      destruct (Run.ndvi LC08 LC09 javaBounds) as [nv|] eqn:Hv; [|discriminate].
      apply (urbanMask_shape nb nv um _ Hb Hv HM). }
    destruct S as (m & ->).
    destruct (Run.lstMean LC08 LC09 javaBounds) as [l|e] eqn:HL.
    + assert (S : l = [] \/ exists r, l = [("LST"%string, r)]).
      { unfold Run.lstMean in HL.
        destruct (Run.lstCollection LC08 LC09 javaBounds) as [col|]; [|discriminate].
        apply (lstMean_shape col javaBounds l HL). }
      cbn [bind].
      destruct (Run.ruralTemp LC08 LC09 javaBounds) as [d|e]; cbn [bind pixelOf].
      * destruct S as [->|(r & ->)].
        -- unfold UHI.uhiIntensity, ee.where_, ee.binop, ee.not, ee.mapBands.
           cbn [List.map bind].
           destruct (eeImage.get "LST" d) as [[rmean|]|e];
             cbn; destruct (match m p with Some x => Qnonzero x | None => false end);
             reflexivity.
        -- rewrite uhiIntensity_single, pixelAt_single. reflexivity.
      * destruct (keeps _ p); [|reflexivity]. destruct (pixelAt l "LST" p); reflexivity.
    + cbn [bind pixelOf]. destruct (keeps _ p); reflexivity.
  - destruct (Run.lstMean LC08 LC09 javaBounds); reflexivity.
Qed.

(** ** Aggregation limit *)

Lemma masked_mean_over_limit (l m : Raster) (k : string) (g : Geometry) :
  (10 ^ 13 < Z.of_nat (List.length g))%Z ->
  (img <- ee.updateMask [("LST"%string, l)] [(k, m)] ;;
   d <- eeImage.reduceRegion (UHI.regionArgs g) img ;;
   eeImage.get "LST" d)
  = Err (TooManyPixels (Z.of_nat (List.length g)) (10 ^ 13)).
Proof.
  intros H. unfold ee.updateMask, ee.binop, bind.
  rewrite reduceRegion_over by exact H. reflexivity.
Qed.

Lemma cityLST_within (r : Raster) (buffer : Geometry) :
  (Z.of_nat (List.length buffer) <= 10 ^ 13)%Z ->
  (d <- UHI.cityLST [("LST"%string, r)] buffer ;; eeImage.get "LST" d)
  = Ok (eeImage.weightedMean r buffer).
Proof.
  intros H. unfold UHI.cityLST. rewrite reduceRegion_within by exact H. reflexivity.
Qed.

(** C8. A region reduction whose region holds more pixels than [maxPixels]
    fails with the aggregation-limit error; it never returns a mean.  In the
    script the urban and the rural mean share the boundary and the cap of
    10^13, so they fail together and the panel shows no value, while a city
    mean whose buffer is within the cap is computed as usual. *)
Theorem aggregation_limit_is_an_error :
  (forall (args : eeImage.ReduceRegionArgs) (img : Image),
      (eeImage.maxPixels args < Z.of_nat (List.length (eeImage.geometry args)))%Z ->
      eeImage.reduceRegion args img
      = Err (TooManyPixels (Z.of_nat (List.length (eeImage.geometry args)))
               (eeImage.maxPixels args))) /\
  (forall (l um rm : Raster) (ku kr : string) (javaBounds buffer : Geometry),
      (10 ^ 13 < Z.of_nat (List.length javaBounds))%Z ->
      (Z.of_nat (List.length buffer) <= 10 ^ 13)%Z ->
      urbanMeanOf [("LST"%string, l)] [(ku, um)] javaBounds
      = Err (TooManyPixels (Z.of_nat (List.length javaBounds)) (10 ^ 13)) /\
      ruralMeanOf [("LST"%string, l)] [(kr, rm)] javaBounds
      = Err (TooManyPixels (Z.of_nat (List.length javaBounds)) (10 ^ 13)) /\
      reportedUHI
        (UHI.statsPanel (urbanMeanOf [("LST"%string, l)] [(ku, um)] javaBounds)
           (ruralMeanOf [("LST"%string, l)] [(kr, rm)] javaBounds)) = None /\
      (d <- UHI.cityLST [("LST"%string, l)] buffer ;; eeImage.get "LST" d)
      = Ok (eeImage.weightedMean l buffer)).
Proof.
  split.
  - intros args img H. apply reduceRegion_over. exact H.
  - intros l um rm ku kr g buffer Over Within.
    assert (U : urbanMeanOf [("LST"%string, l)] [(ku, um)] g
                = Err (TooManyPixels (Z.of_nat (List.length g)) (10 ^ 13))).
    { apply masked_mean_over_limit. exact Over. }
    assert (R : ruralMeanOf [("LST"%string, l)] [(kr, rm)] g
                = Err (TooManyPixels (Z.of_nat (List.length g)) (10 ^ 13))).
    { apply masked_mean_over_limit. exact Over. }
    rewrite U, R.
    split; [reflexivity|]. split; [reflexivity|]. split; [reflexivity|].
    apply cityLST_within. exact Within.
Qed.

Lemma oversizedBounds_length :
  (10 ^ 13 < Z.of_nat (List.length oversizedBounds))%Z.
Proof.
  unfold oversizedBounds. rewrite repeat_length, Z2Nat.id; lia.
Qed.

Lemma aggregation_limit_is_an_error_witness :
  eeImage.reduceRegion
    {| eeImage.reducer := eeImage.Reducer_mean;
       eeImage.geometry := syntheticBounds;
       eeImage.scale := 1;
       eeImage.maxPixels := 3 |}
    [("LST"%string, row (fun i => Some (inject_Z i)))]
  = Err (TooManyPixels 4 3) /\
  urbanMeanOf [("LST"%string, row (fun i => Some (inject_Z i)))]
    [("m"%string, row (fun _ => Some 1))] oversizedBounds
  = Err (TooManyPixels (Z.of_nat (List.length oversizedBounds)) (10 ^ 13)) /\
  (d <- UHI.cityLST [("LST"%string, row (fun i => Some (inject_Z i)))] syntheticBounds ;;
   eeImage.get "LST" d)
  = Ok (eeImage.weightedMean (row (fun i => Some (inject_Z i))) syntheticBounds).
Proof.
  split.
  - apply (proj1 aggregation_limit_is_an_error
             {| eeImage.reducer := eeImage.Reducer_mean;
                eeImage.geometry := syntheticBounds;
                eeImage.scale := 1;
                eeImage.maxPixels := 3 |}).
    simpl. lia.
  - destruct (proj2 aggregation_limit_is_an_error
                (row (fun i => Some (inject_Z i)))
                (row (fun _ => Some 1)) (row (fun _ => Some 1))
                "m"%string "m"%string oversizedBounds syntheticBounds)
      as (U & _ & _ & C).
    + exact oversizedBounds_length.
    + simpl. lia.
    + split; [exact U|exact C].
Defined.

(** ** City statistics *)

Lemma accumulate_clip (g : Geometry) (r : Raster) (cells : Geometry) (acc : Q * Q) :
  eeImage.accumulate (fun p => if covers g p then r p else None) cells acc
  = eeImage.accumulate r (filter (fun c => covers g (fst c)) cells) acc.
Proof.
  revert acc. induction cells as [|[p w] cells IH]; intros acc; [reflexivity|].
  cbn [eeImage.accumulate filter fst].
  destruct (covers g p).
  - cbn [eeImage.accumulate]. destruct (r p); [destruct (Qltb 0 w)|]; apply IH.
  - apply IH.
Qed.

Lemma weightedMean_clip (g : Geometry) (r : Raster) (cells : Geometry) :
  eeImage.weightedMean (fun p => if covers g p then r p else None) cells
  = eeImage.weightedMean r (filter (fun c => covers g (fst c)) cells).
Proof. unfold eeImage.weightedMean. rewrite accumulate_clip. reflexivity. Qed.

Lemma accumulate_none (r : Raster) (cells : Geometry) (acc : Q * Q) :
  (forall c, In c cells -> r (fst c) = None) ->
  eeImage.accumulate r cells acc = acc.
Proof.
  revert acc. induction cells as [|[p w] cells IH]; intros acc H; [reflexivity|].
  cbn [eeImage.accumulate].
  pose proof (H (p, w) (or_introl eq_refl)) as E. cbn [fst] in E. rewrite E.
  apply IH. intros c Hc. apply H. right. exact Hc.
Qed.

Lemma weightedMean_none (r : Raster) (cells : Geometry) :
  (forall c, In c cells -> r (fst c) = None) ->
  eeImage.weightedMean r cells = None.
Proof.
  intros H. unfold eeImage.weightedMean. rewrite (accumulate_none r cells (0, 0) H).
  reflexivity.
Qed.

(** C10. Every printed city mean is the weighted mean of the (unclipped)
    mean composite over the cells of the city's 10 km buffer that lie inside
    the Java boundary, because the composite was clipped to the boundary
    first: the cells of the buffer outside the boundary contribute nothing.
    A buffer without any valid clipped pixel gives a null mean. *)
Theorem city_mean_within_boundary
  (LC08 LC09 : list Scene) (javaBounds : Geometry) (pointBuffer : Q * Q -> Q -> Geometry) :
  forallb wellFormed (Run.landsat LC08 LC09 javaBounds) = true ->
  Run.landsat LC08 LC09 javaBounds <> [] ->
  (forall city, In city UHI.cities ->
     (Z.of_nat (List.length (pointBuffer (UHI.coords city) 10000%Q)) <= 10 ^ 13)%Z) ->
  Run.citiesPrinted LC08 LC09 javaBounds pointBuffer =
  List.map
    (fun city =>
       ((UHI.name city ++ " Average LST (°C):")%string,
        Ok (eeImage.weightedMean
              (fun p => meanReducer (sceneLSTs (Run.landsat LC08 LC09 javaBounds) p))
              (filter (fun c => covers javaBounds (fst c))
                 (pointBuffer (UHI.coords city) 10000)))))
    UHI.cities /\
  (forall city l,
     In city UHI.cities ->
     Run.lstMean LC08 LC09 javaBounds = Ok l ->
     (forall c, In c (pointBuffer (UHI.coords city) 10000) ->
        pixelAt l "LST" (fst c) = None) ->
     In ((UHI.name city ++ " Average LST (°C):")%string, Ok None)
       (Run.citiesPrinted LC08 LC09 javaBounds pointBuffer)).
Proof.
  intros W NE Within.
  destruct (lstMean_composite _ javaBounds W) as (l & Hl & _ & Hs & Hp).
  destruct (Hs NE) as (r & ->).
  assert (City : forall city, In city UHI.cities ->
            (img <- Run.lstMean LC08 LC09 javaBounds ;;
             d <- UHI.cityLST img (pointBuffer (UHI.coords city) 10000) ;;
             eeImage.get "LST" d)
            = Ok (eeImage.weightedMean r (pointBuffer (UHI.coords city) 10000))).
  { intros city Hc. unfold Run.lstMean, Run.lstCollection. rewrite Hl. cbn [bind].
    apply cityLST_within. apply Within. exact Hc. }
  assert (Clip : forall p,
            r p = if covers javaBounds p
                  then meanReducer (sceneLSTs (Run.landsat LC08 LC09 javaBounds) p)
                  else None).
  { intros p. rewrite <- Hp, pixelAt_single. reflexivity. }
  split.
  - unfold Run.citiesPrinted, UHI.citiesPrinted.
    apply map_ext_in. intros city Hc. f_equal.
    rewrite (City city Hc). f_equal.
    rewrite <- weightedMean_clip. apply weightedMean_ext. exact Clip.
  - intros city l' Hc Hl' Hnone.
    unfold Run.citiesPrinted, UHI.citiesPrinted.
    apply in_map_iff. exists city. split; [|exact Hc].
    f_equal. rewrite (City city Hc). f_equal.
    apply weightedMean_none. intros c Hin.
    unfold Run.lstMean, Run.lstCollection in Hl'. rewrite Hl in Hl'.
    injection Hl' as <-.
    rewrite <- (Hnone c Hin), pixelAt_single. reflexivity.
Qed.

Lemma city_mean_within_boundary_witness :
  In ("Jakarta Average LST (°C):"%string, Ok None)
    (Run.citiesPrinted [syntheticScene] [] syntheticBounds (fun _ _ => [(px 7, 1)])) /\
  exists v,
    In ("Jakarta Average LST (°C):"%string, Ok (Some v))
      (Run.citiesPrinted [syntheticScene] [] syntheticBounds (fun _ _ => straddlingBuffer)) /\
    v == 92 # 3.
Proof.
  split.
  - destruct (city_mean_within_boundary [syntheticScene] [] syntheticBounds
                (fun _ _ => [(px 7, 1)])) as [_ Hnull].
    + vm_compute. reflexivity.
    + vm_compute. discriminate.
    + intros city _. vm_compute. discriminate.
    + destruct (lstMean_composite (Run.landsat [syntheticScene] [] syntheticBounds)
                  syntheticBounds eq_refl) as (l & Hl & _ & _ & Hp).
      apply (Hnull (UHI.mkCity "Jakarta" (106.8456, -6.2088)) l).
      * left. reflexivity.
      * exact Hl.
      * intros c [<-|[]]. rewrite Hp. reflexivity.
  - destruct (city_mean_within_boundary [syntheticScene] [] syntheticBounds
                (fun _ _ => straddlingBuffer)) as [Hall _].
    + vm_compute. reflexivity.
    + vm_compute. discriminate.
    + intros city _. vm_compute. discriminate.
    + rewrite Hall. eexists. split; [left; reflexivity|].
      vm_compute. reflexivity.
Defined.

(** * Further properties of the script *)

(** ** Scene loader *)

(** X1. A scene is used by the script exactly when it comes from one of the
    two archives, its footprint intersects the boundary, it was acquired in
    the analysis period and its cloud cover is below 20; the printed scene
    count never exceeds the sizes of the two archives together. *)
Theorem landsat_membership (LC08 LC09 : list Scene) (javaBounds : Geometry) :
  (forall s,
      In s (UHI.landsat LC08 LC09 javaBounds) <->
      (In s LC08 \/ In s LC09) /\
      intersects (footprint s) javaBounds = true /\
      inWindow (acquired s) = true /\
      CLOUD_COVER s < 20) /\
  (landsatSize (UHI.landsat LC08 LC09 javaBounds) <= List.length LC08 + List.length LC09)%nat.
Proof.
  split.
  - intros s.
    unfold UHI.landsat, ImageCollection.filterCloudCoverLt, ImageCollection.filterDate,
      ImageCollection.filterBounds, ImageCollection.merge, inWindow.
    rewrite !filter_In, in_app_iff, Qltb_true. tauto.
  - unfold landsatSize, UHI.landsat, ImageCollection.filterCloudCoverLt,
      ImageCollection.filterDate, ImageCollection.filterBounds, ImageCollection.merge.
    rewrite <- length_app.
    eapply Nat.le_trans; [apply filter_length_le|].
    eapply Nat.le_trans; [apply filter_length_le|].
    apply filter_length_le.
Qed.

(** X2. The analysis period is the half-open interval from 2024-06-01 to
    2024-09-30: a date is inside exactly when its year is 2024 and it is a
    day of June from the 1st on, any day of July or August, or a day of
    September before the 30th. *)
Theorem analysis_window (y m d : Z) :
  inWindow (y, m, d) = true <->
  (y = 2024 /\ ((m = 6 /\ 1 <= d) \/ (6 < m < 9) \/ (m = 9 /\ d < 30)))%Z.
Proof.
  unfold inWindow.
  change (UHI.dateOf UHI.startDate) with (2024, 6, 1)%Z.
  change (UHI.dateOf UHI.endDate) with (2024, 9, 30)%Z.
  unfold date_leb, date_ltb.
  rewrite andb_true_iff, negb_true_iff.
  destruct (Z.ltb_spec y 2024), (Z.eqb_spec y 2024), (Z.ltb_spec 2024 y),
    (Z.eqb_spec 2024 y), (Z.ltb_spec m 6), (Z.eqb_spec m 6), (Z.ltb_spec m 9),
    (Z.eqb_spec m 9), (Z.ltb_spec d 1), (Z.ltb_spec d 30);
    cbn; split; intros; try lia; try (split; congruence); try (destruct H; congruence).
Qed.

(** ** Band transformer *)

Lemma lookup_app_some {A : Type} (k : string) (a : A) (l l' : list (string * A)) :
  lookup k l = Some a -> lookup k (l ++ l') = Some a.
Proof.
  induction l as [|[k' a'] l IH]; simpl; [discriminate|].
  destruct (String.eqb k k'); [trivial|exact IH].
Qed.

Lemma addBands_single (img : Image) (name : string) (r : Raster) :
  exists name',
    ee.addBands img [(name, r)] = img ++ [(name', r)] /\
    (ee.hasBand name img = false -> name' = name).
Proof.
  cbn [ee.addBands]. eexists. split; [reflexivity|].
  intros H. rewrite H. reflexivity.
Qed.

(** X3. [calculateLST] fails exactly when the image has no band 'ST_B10'.
    Otherwise it returns the image with one band more: every band the image
    had is still there, unchanged and under its name, and when no band was
    called 'LST' before, the band 'LST' of the result is the thermal band
    decoded to degrees Celsius. *)
Theorem calculateLST_keeps_bands (image : Image) :
  (lookup "ST_B10" image = None <->
   UHI.calculateLST image = Err (BandNotFound "ST_B10")) /\
  (forall thermal,
      lookup "ST_B10" image = Some thermal ->
      exists img,
        UHI.calculateLST image = Ok img /\
        List.length img = S (List.length image) /\
        (forall b r, lookup b image = Some r -> lookup b img = Some r) /\
        (ee.hasBand "LST" image = false ->
         forall p, pixelAt img "LST" p = option_map decodeLST (thermal p))).
Proof.
  split.
  - unfold UHI.calculateLST, ee.select.
    destruct (lookup "ST_B10" image) as [t|]; cbn [bind]; split; intros H;
      try reflexivity; try discriminate.
  - intros t Ht.
    unfold UHI.calculateLST, ee.select. rewrite Ht.
    unfold bind, ee.multiply, ee.add, ee.subtract, ee.mapBands, ee.rename.
    cbn [List.map fst snd].
    destruct (addBands_single image "LST" (lstRasterOf t)) as (name' & E & Hn).
    exists (image ++ [(name', lstRasterOf t)]).
    split; [f_equal; exact E|].
    split; [rewrite length_app, Nat.add_comm; reflexivity|].
    split.
    + intros b r Hb. apply lookup_app_some. exact Hb.
    + intros Hl p. rewrite (Hn Hl). unfold pixelAt.
      rewrite (lookup_app_none _ _ _ (hasBand_false _ _ Hl)), lookup_same.
      apply lstRasterOf_pixel.
Qed.

Lemma calculateLST_keeps_bands_witness :
  exists img,
    UHI.calculateLST (bands syntheticScene) = Ok img /\
    List.length img = 5%nat /\
    forall p, pixelAt img "SR_B5" p = pixelAt (bands syntheticScene) "SR_B5" p.
Proof.
  destruct (proj2 (calculateLST_keeps_bands (bands syntheticScene)) _ eq_refl)
    as (img & E & L & K & _).
  exists img. split; [exact E|]. split; [exact L|].
  intros p. unfold pixelAt at 1. rewrite (K "SR_B5"%string _ eq_refl). reflexivity.
Defined.

Lemma decodeLST_monotone (a b : Q) : a <= b -> decodeLST a <= decodeLST b.
Proof.
  unfold decodeLST. intros H.
  apply Qplus_le_l. apply Qplus_le_l. apply Qmult_le_compat_r; [exact H|].
  unfold Qle. simpl. lia.
Qed.

Lemma Qsum_bounds (lo hi : Q) (vs : list Q) :
  (forall v, In v vs -> lo <= v /\ v <= hi) ->
  lo * Qlen vs <= Qsum vs /\ Qsum vs <= hi * Qlen vs.
Proof.
  unfold Qlen. induction vs as [|v vs IH]; intros H.
  - cbn [Qsum List.length Z.of_nat]. change (inject_Z 0) with 0. split; lra.
  - destruct (H v (or_introl eq_refl)) as [L U].
    destruct (IH (fun w Hw => H w (or_intror Hw))) as [IL IU].
    cbn [Qsum List.length]. rewrite Nat2Z.inj_succ, <- Z.add_1_r, inject_Z_plus.
    change (inject_Z 1) with 1. split; lra.
Qed.

Lemma meanReducer_bounds (lo hi m : Q) (vs : list Q) :
  meanReducer vs = Some m ->
  (forall v, In v vs -> lo <= v /\ v <= hi) ->
  lo <= m /\ m <= hi.
Proof.
  intros Hm H. destruct (Qsum_bounds lo hi vs H) as [L U].
  destruct vs as [|v vs]; [discriminate|].
  injection Hm as <-.
  assert (P : 0 < Qlen (v :: vs)).
  { unfold Qlen. cbn [List.length]. rewrite Nat2Z.inj_succ.
    change 0 with (inject_Z 0). rewrite <- Zlt_Qlt. lia. }
  split.
  - apply Qle_shift_div_l; [exact P|exact L].
  - apply Qle_shift_div_r; [exact P|exact U].
Qed.

Lemma sceneLSTs_In (scenes : list Scene) (p : Pixel) (v : Q) :
  In v (sceneLSTs scenes p) ->
  exists s dn, In s scenes /\ pixelAt (bands s) "ST_B10" p = Some dn /\ v = decodeLST dn.
Proof.
  unfold sceneLSTs. rewrite in_flat_map. intros (s & Hs & Hv).
  destruct (pixelAt (bands s) "ST_B10" p) as [dn|] eqn:E; [|contradiction].
  destruct Hv as [<-|[]]. eauto.
Qed.

(** X4. Every valid pixel of the LST composite lies between the decoded
    smallest and the decoded largest thermal value that the qualifying scenes
    hold at that pixel: decoding is increasing and the composite is a mean.
    (With thermal numbers between 0 and 65535 the composite lies between
    -124.15 and 99.85 degrees.) *)
Theorem lst_composite_range
  (LC08 LC09 : list Scene) (javaBounds : Geometry) (lo hi : Q) (l : Image)
  (p : Pixel) (v : Q) :
  forallb wellFormed (Run.landsat LC08 LC09 javaBounds) = true ->
  Run.lstMean LC08 LC09 javaBounds = Ok l ->
  (forall s dn,
      In s (Run.landsat LC08 LC09 javaBounds) ->
      pixelAt (bands s) "ST_B10" p = Some dn -> lo <= dn /\ dn <= hi) ->
  pixelAt l "LST" p = Some v ->
  decodeLST lo <= v /\ v <= decodeLST hi.
Proof.
  intros W Hl Hdn Hv.
  destruct (lstMean_composite _ javaBounds W) as (l' & Hl' & _ & _ & Hp).
  unfold Run.lstMean, Run.lstCollection in Hl. rewrite Hl' in Hl.
  injection Hl as <-. rewrite Hp in Hv.
  destruct (covers javaBounds p); [|discriminate].
  apply (meanReducer_bounds _ _ _ _ Hv).
  intros x Hx. apply sceneLSTs_In in Hx. destruct Hx as (s & dn & Hs & Hd & ->).
  destruct (Hdn s dn Hs Hd) as [L U].
  split; apply decodeLST_monotone; assumption.
Qed.

Lemma lst_composite_range_witness :
  exists l v,
    Run.lstMean threeScenes [] [(px 0, 1)] = Ok l /\
    pixelAt l "LST" (px 0) = Some v /\
    decodeLST (thermalDN 20) <= v /\ v <= decodeLST (thermalDN 36).
Proof.
  destruct (lstMean_composite (Run.landsat threeScenes [] [(px 0, 1)]) [(px 0, 1)] eq_refl)
    as (l & Hl & _ & _ & _).
  destruct (pixelAt l "LST" (px 0)) as [v|] eqn:Hv.
  - exists l, v. split; [exact Hl|]. split; [exact Hv|].
    apply (lst_composite_range threeScenes [] [(px 0, 1)] _ _ l (px 0) v eq_refl Hl);
      [|exact Hv].
    intros s dn [<-|[<-|[<-|[]]]] H; vm_compute in H; injection H as <-;
      split; vm_compute; discriminate.
  - exfalso.
    assert (E : Run.lstMean threeScenes [] [(px 0, 1)] = Ok l) by exact Hl.
    vm_compute in E. injection E as <-. vm_compute in Hv. discriminate.
Defined.

(** ** Aggregator *)

Lemma validCells_In (r : Raster) (cells : Geometry) (w v : Q) :
  In (w, v) (validCells r cells) <->
  exists p, In (p, w) cells /\ r p = Some v /\ 0 < w.
Proof.
  unfold validCells. rewrite in_flat_map. split.
  - intros ([p w'] & Hc & H). cbn [fst snd] in H.
    destruct (r p) as [x|] eqn:E; [|contradiction].
    destruct (Qltb 0 w') eqn:P; [|contradiction].
    destruct H as [H|[]]. injection H as -> ->.
    exists p. split; [exact Hc|]. split; [exact E|]. apply Qltb_true. exact P.
  - intros (p & Hc & E & P). exists (p, w). split; [exact Hc|].
    cbn [fst snd]. rewrite E. apply Qltb_true in P. rewrite P. left. reflexivity.
Qed.

Lemma wsum_lower (lo : Q) (l : list (Q * Q)) :
  (forall wv, In wv l -> 0 < fst wv /\ lo <= snd wv) ->
  lo * wtot l <= wsum l.
Proof.
  unfold wsum, wtot. induction l as [|[w v] l IH]; intros H.
  - simpl. lra.
  - destruct (H (w, v) (or_introl eq_refl)) as (P & L). cbn [fst snd] in P, L.
    pose proof (IH (fun x Hx => H x (or_intror Hx))) as IL.
    cbn [List.map Qsum fst snd].
    assert (A : lo * w <= v * w) by (apply Qmult_le_compat_r; lra).
    lra.
Qed.

Lemma wsum_upper (hi : Q) (l : list (Q * Q)) :
  (forall wv, In wv l -> 0 < fst wv /\ snd wv <= hi) ->
  wsum l <= hi * wtot l.
Proof.
  unfold wsum, wtot. induction l as [|[w v] l IH]; intros H.
  - simpl. lra.
  - destruct (H (w, v) (or_introl eq_refl)) as (P & U). cbn [fst snd] in P, U.
    pose proof (IH (fun x Hx => H x (or_intror Hx))) as IU.
    cbn [List.map Qsum fst snd].
    assert (B : v * w <= hi * w) by (apply Qmult_le_compat_r; lra).
    lra.
Qed.

Lemma weightedMean_lower (r : Raster) (cells : Geometry) (lo m : Q) :
  eeImage.weightedMean r cells = Some m ->
  (forall p w v, In (p, w) cells -> r p = Some v -> lo <= v) ->
  lo <= m.
Proof.
  intros Hm H.
  pose proof (weightedMean_spec r cells) as S. rewrite Hm in S.
  pose proof (validCells_positive r cells) as P.
  assert (B : forall wv, In wv (validCells r cells) -> 0 < fst wv /\ lo <= snd wv).
  { intros [w v] Hin. apply validCells_In in Hin. destruct Hin as (p & Hc & E & Pw).
    cbn [fst snd]. split; [exact Pw|]. apply (H p w v Hc E). }
  apply wsum_lower in B.
  destruct (validCells r cells) as [|wv l]; [contradiction|].
  apply wtot_positive in P. unfold oQeq, areaWeightedMean in S. rewrite S.
  apply Qle_shift_div_l; [exact P|exact B].
Qed.

Lemma weightedMean_upper (r : Raster) (cells : Geometry) (hi m : Q) :
  eeImage.weightedMean r cells = Some m ->
  (forall p w v, In (p, w) cells -> r p = Some v -> v <= hi) ->
  m <= hi.
Proof.
  intros Hm H.
  pose proof (weightedMean_spec r cells) as S. rewrite Hm in S.
  pose proof (validCells_positive r cells) as P.
  assert (B : forall wv, In wv (validCells r cells) -> 0 < fst wv /\ snd wv <= hi).
  { intros [w v] Hin. apply validCells_In in Hin. destruct Hin as (p & Hc & E & Pw).
    cbn [fst snd]. split; [exact Pw|]. apply (H p w v Hc E). }
  apply wsum_upper in B.
  destruct (validCells r cells) as [|wv l]; [contradiction|].
  apply wtot_positive in P. unfold oQeq, areaWeightedMean in S. rewrite S.
  apply Qle_shift_div_r; [exact P|exact B].
Qed.

Lemma masked_mean_cases (l m : Raster) (k : string) (g : Geometry) :
  (img <- ee.updateMask [("LST"%string, l)] [(k, m)] ;;
   d <- eeImage.reduceRegion (UHI.regionArgs g) img ;;
   eeImage.get "LST" d)
  = if (10 ^ 13 <? Z.of_nat (List.length g))%Z
    then Err (TooManyPixels (Z.of_nat (List.length g)) (10 ^ 13))
    else Ok (eeImage.weightedMean (ee.updateMaskRaster l m) g).
Proof.
  destruct (Z.ltb_spec (10 ^ 13) (Z.of_nat (List.length g))) as [Over|Within].
  - apply masked_mean_over_limit. exact Over.
  - apply (masked_region_mean l m k g Within).
Qed.

Lemma masked_mean_some (l m : Raster) (k : string) (g : Geometry) (u : option Q) :
  (img <- ee.updateMask [("LST"%string, l)] [(k, m)] ;;
   d <- eeImage.reduceRegion (UHI.regionArgs g) img ;;
   eeImage.get "LST" d) = Ok u ->
  eeImage.weightedMean (ee.updateMaskRaster l m) g = u.
Proof.
  rewrite masked_mean_cases.
  destruct (_ <? _)%Z; [discriminate|]. intros H. injection H as <-. reflexivity.
Qed.

Lemma masked_pixel (l m : Raster) (k : string) (p : Pixel) (v : Q) :
  ee.updateMaskRaster l m p = Some v ->
  keeps [(k, m)] p = true /\ l p = Some v.
Proof.
  rewrite (updateMaskRaster_restrict l m k). unfold restrict.
  destruct (keeps [(k, m)] p); [|discriminate]. intros H. split; [reflexivity|exact H].
Qed.

(** X5. A masked region mean lies between the smallest and the largest LST
    value among the pixels it averages: if every pixel of the region that the
    mask keeps has its LST between [lo] and [hi], so has the urban (or rural)
    mean. *)
Theorem region_mean_within_bounds
  (l m : Raster) (k : string) (javaBounds : Geometry) (lo hi u : Q) :
  (forall p w v,
      In (p, w) javaBounds -> keeps [(k, m)] p = true -> l p = Some v ->
      lo <= v /\ v <= hi) ->
  (urbanMeanOf [("LST"%string, l)] [(k, m)] javaBounds = Ok (Some u) ->
   lo <= u /\ u <= hi) /\
  (ruralMeanOf [("LST"%string, l)] [(k, m)] javaBounds = Ok (Some u) ->
   lo <= u /\ u <= hi).
Proof.
  intros H.
  assert (G : eeImage.weightedMean (ee.updateMaskRaster l m) javaBounds = Some u ->
              lo <= u /\ u <= hi).
  { intros Hw. split.
    - apply (weightedMean_lower _ _ _ _ Hw). intros p w v Hc Hv.
      destruct (masked_pixel l m k p v Hv) as [K E]. apply (H p w v Hc K E).
    - apply (weightedMean_upper _ _ _ _ Hw). intros p w v Hc Hv.
      destruct (masked_pixel l m k p v Hv) as [K E]. apply (H p w v Hc K E). }
  split; intros Hu; apply G; apply (masked_mean_some l m k javaBounds (Some u) Hu).
Qed.

Lemma region_mean_within_bounds_witness :
  exists u,
    urbanMeanOf [("LST"%string, row (fun i => Some (inject_Z i)))]
      [("m"%string, row (fun i => if (i <? 2)%Z then Some 1 else None))]
      syntheticBounds = Ok (Some u) /\
    0 <= u /\ u <= 1.
Proof.
  eexists. split; [vm_compute; reflexivity|].
  refine (proj1 (region_mean_within_bounds
                   (row (fun i => Some (inject_Z i)))
                   (row (fun i => if (i <? 2)%Z then Some 1 else None))
                   "m"%string syntheticBounds 0 1 _ _) _).
  - intros p w v Hc Hk Hv.
    destruct Hc as [E|[E|[E|[E|[]]]]]; injection E as <- <-;
      vm_compute in Hk; try discriminate;
      vm_compute in Hv; injection Hv as <-; split; vm_compute; discriminate.
  - vm_compute. reflexivity.
Defined.

(** X6. The UHI intensity is not negative when no urban pixel is cooler than
    any rural pixel: if every pixel kept by the urban mask is at least [t]
    and every pixel kept by the rural mask is at most [t], the urban mean is
    at least the rural mean. *)
Theorem uhi_nonnegative
  (l um rm : Raster) (ku kr : string) (javaBounds : Geometry) (t u r : Q) :
  (forall p w v,
      In (p, w) javaBounds -> keeps [(ku, um)] p = true -> l p = Some v -> t <= v) ->
  (forall p w v,
      In (p, w) javaBounds -> keeps [(kr, rm)] p = true -> l p = Some v -> v <= t) ->
  urbanMeanOf [("LST"%string, l)] [(ku, um)] javaBounds = Ok (Some u) ->
  ruralMeanOf [("LST"%string, l)] [(kr, rm)] javaBounds = Ok (Some r) ->
  r <= t /\ t <= u /\ 0 <= u - r.
Proof.
  intros HU HR Hu Hr.
  pose proof (masked_mean_some l um ku javaBounds (Some u) Hu) as Wu.
  pose proof (masked_mean_some l rm kr javaBounds (Some r) Hr) as Wr.
  assert (U : t <= u).
  { apply (weightedMean_lower _ _ _ _ Wu). intros p w v Hc Hv.
    destruct (masked_pixel l um ku p v Hv) as [K E]. apply (HU p w v Hc K E). }
  assert (R : r <= t).
  { apply (weightedMean_upper _ _ _ _ Wr). intros p w v Hc Hv.
    destruct (masked_pixel l rm kr p v Hv) as [K E]. apply (HR p w v Hc K E). }
  repeat split; lra.
Qed.

Lemma uhi_nonnegative_witness :
  exists u r,
    urbanMeanOf [("LST"%string, row (fun i => Some (inject_Z i)))]
      [("m"%string, row (fun i => if (i <? 2)%Z then Some 0 else Some 1))]
      syntheticBounds = Ok (Some u) /\
    ruralMeanOf [("LST"%string, row (fun i => Some (inject_Z i)))]
      [("m"%string, row (fun i => if (i <? 2)%Z then Some 1 else None))]
      syntheticBounds = Ok (Some r) /\
    0 <= u - r.
Proof.
  do 2 eexists.
  split; [vm_compute; reflexivity|]. split; [vm_compute; reflexivity|].
  refine (proj2 (proj2 (uhi_nonnegative
                   (row (fun i => Some (inject_Z i)))
                   (row (fun i => if (i <? 2)%Z then Some 0 else Some 1))
                   (row (fun i => if (i <? 2)%Z then Some 1 else None))
                   "m"%string "m"%string syntheticBounds (3 # 2) _ _ _ _ _ _))).
  - intros p w v Hc Hk Hv.
    destruct Hc as [E|[E|[E|[E|[]]]]]; injection E as <- <-;
      vm_compute in Hk; try discriminate;
      vm_compute in Hv; injection Hv as <-; vm_compute; discriminate.
  - intros p w v Hc Hk Hv.
    destruct Hc as [E|[E|[E|[E|[]]]]]; injection E as <- <-;
      vm_compute in Hk; try discriminate;
      vm_compute in Hv; injection Hv as <-; vm_compute; discriminate.
  - vm_compute. reflexivity.
  - vm_compute. reflexivity.
Defined.

Lemma weightedMean_none_iff (r : Raster) (cells : Geometry) :
  eeImage.weightedMean r cells = None <->
  forall p w, In (p, w) cells -> 0 < w -> r p = None.
Proof.
  pose proof (weightedMean_spec r cells) as S.
  split.
  - intros E p w Hc Pw. rewrite E in S.
    destruct (r p) as [v|] eqn:Hv; [|reflexivity]. exfalso.
    assert (I : In (w, v) (validCells r cells)).
    { apply validCells_In. exists p. auto. }
    destruct (validCells r cells); [contradiction|exact S].
  - intros H.
    destruct (validCells r cells) as [|[w v] l] eqn:E.
    + destruct (eeImage.weightedMean r cells); [contradiction|reflexivity].
    + exfalso.
      assert (I : In (w, v) (validCells r cells)) by (rewrite E; left; reflexivity).
      apply validCells_In in I. destruct I as (p & Hc & Hv & Pw).
      rewrite (H p w Hc Pw) in Hv. discriminate.
Qed.

(** X7. A region mean of the script is null exactly when no pixel
    contributes to it: within the pixel cap, [urbanTemp.get('LST')] is null
    if and only if every cell of the boundary that the mask keeps, and of
    which the boundary covers a positive part, has no LST value. *)
Theorem region_mean_null_iff (l m : Raster) (k : string) (javaBounds : Geometry) :
  (Z.of_nat (List.length javaBounds) <= 10 ^ 13)%Z ->
  (urbanMeanOf [("LST"%string, l)] [(k, m)] javaBounds = Ok None <->
   forall p w,
     In (p, w) javaBounds -> 0 < w -> keeps [(k, m)] p = true -> l p = None).
Proof.
  intros Within. rewrite (urbanMeanOf_single l m k javaBounds Within).
  split.
  - intros H p w Hc Pw K. injection H as H.
    pose proof (proj1 (weightedMean_none_iff _ _) H p w Hc Pw) as E.
    rewrite (updateMaskRaster_restrict l m k) in E. unfold restrict in E.
    rewrite K in E. exact E.
  - intros H. f_equal. apply weightedMean_none_iff. intros p w Hc Pw.
    rewrite (updateMaskRaster_restrict l m k). unfold restrict.
    destruct (keeps [(k, m)] p) eqn:K; [|reflexivity].
    apply (H p w Hc Pw K).
Qed.

Lemma region_mean_null_iff_witness :
  urbanMeanOf [("LST"%string, row (fun i => Some (inject_Z i)))]
    [("m"%string, row (fun i => if (i <? 9)%Z then Some 0 else Some 1))]
    syntheticBounds = Ok None.
Proof.
  apply (region_mean_null_iff (row (fun i => Some (inject_Z i)))
           (row (fun i => if (i <? 9)%Z then Some 0 else Some 1))
           "m"%string syntheticBounds).
  - vm_compute. discriminate.
  - intros p w Hc _ K.
    destruct Hc as [E|[E|[E|[E|[]]]]]; injection E as <- <-;
      vm_compute in K; discriminate.
Defined.

Lemma accumulate_ext_in (r r' : Raster) (cells : Geometry) (acc : Q * Q) :
  (forall p w, In (p, w) cells -> r p = r' p) ->
  eeImage.accumulate r cells acc = eeImage.accumulate r' cells acc.
Proof.
  revert acc. induction cells as [|[p w] cells IH]; intros acc H; [reflexivity|].
  cbn [eeImage.accumulate].
  rewrite (H p w (or_introl eq_refl)).
  assert (H' : forall q x, In (q, x) cells -> r q = r' q).
  { intros q x Hq. apply (H q x). right. exact Hq. }
  destruct (r' p); [destruct (Qltb 0 w)|]; apply IH; exact H'.
Qed.

(** X8. A masked region mean depends on the LST composite only through the
    pixels it averages: two composites that agree on every pixel of the
    boundary kept by the mask give the same urban mean (and the same rural
    mean), whatever they hold elsewhere. *)
Theorem region_mean_local (l l' m : Raster) (k : string) (javaBounds : Geometry) :
  (forall p w, In (p, w) javaBounds -> keeps [(k, m)] p = true -> l p = l' p) ->
  urbanMeanOf [("LST"%string, l)] [(k, m)] javaBounds
  = urbanMeanOf [("LST"%string, l')] [(k, m)] javaBounds /\
  ruralMeanOf [("LST"%string, l)] [(k, m)] javaBounds
  = ruralMeanOf [("LST"%string, l')] [(k, m)] javaBounds.
Proof.
  intros H.
  assert (E : eeImage.weightedMean (ee.updateMaskRaster l m) javaBounds
              = eeImage.weightedMean (ee.updateMaskRaster l' m) javaBounds).
  { unfold eeImage.weightedMean. rewrite (accumulate_ext_in _ (ee.updateMaskRaster l' m)).
    - reflexivity.
    - intros p w Hc. rewrite !(updateMaskRaster_restrict _ m k). unfold restrict.
      destruct (keeps [(k, m)] p) eqn:K; [|reflexivity]. apply (H p w Hc K). }
  unfold urbanMeanOf, ruralMeanOf, UHI.urbanLST, UHI.urbanTemp, UHI.ruralLST, UHI.ruralTemp.
  rewrite !masked_mean_cases, E. split; reflexivity.
Qed.

Lemma region_mean_local_witness :
  urbanMeanOf [("LST"%string, row (fun i => Some (inject_Z i)))]
    [("m"%string, row (fun i => if (i <? 2)%Z then Some 1 else None))]
    syntheticBounds
  = urbanMeanOf [("LST"%string, row (fun i => if (i <? 2)%Z then Some (inject_Z i) else None))]
      [("m"%string, row (fun i => if (i <? 2)%Z then Some 1 else None))]
      syntheticBounds.
Proof.
  apply (region_mean_local (row (fun i => Some (inject_Z i)))
           (row (fun i => if (i <? 2)%Z then Some (inject_Z i) else None))
           (row (fun i => if (i <? 2)%Z then Some 1 else None))
           "m"%string syntheticBounds).
  intros p w Hc K.
  destruct Hc as [E|[E|[E|[E|[]]]]]; injection E as <- <-;
    vm_compute in K; try discriminate; reflexivity.
Defined.

(** ** The per-pixel UHI raster, again *)

(** X9. The raster [lstMean.where(urbanMask.not(), 0)] is the LST composite
    itself: the urban mask is self-masked, so its negation is zero or
    no-data everywhere and the replacement by 0 never happens. *)
Theorem where_step_changes_nothing
  (n n1 n2 : string) (l b v : Raster) :
  exists um zeroed,
    UHI.urbanMask [(n1, b)] [(n2, v)] = Ok um /\
    ee.where_ [(n, l)] (ee.not um) 0 = Ok zeroed /\
    forall p, pixelAt zeroed n p = l p.
Proof.
  do 2 eexists. split; [reflexivity|]. split; [reflexivity|].
  intros p. cbn [List.map fst snd ee.mapBands]. rewrite pixelAt_single.
  unfold ee.whereRaster, ee.pointwise, ee.updateMaskRaster, ee.andRaster.
  destruct (l p) as [x|]; [|reflexivity].
  destruct (b p) as [y|]; [|reflexivity]. cbn [option_map].
  destruct (v p) as [z|]; [|reflexivity]. cbn [option_map].
  rewrite !ofBool_nonzero.
  destruct (Qnonzero (ofBool (Qgtb y 0.1)) && Qnonzero (ofBool (Qltb z 0.2)))%bool eqn:E;
    rewrite !ofBool_nonzero in E; rewrite E; reflexivity.
Qed.

(** X10. The urban mask is self-masked and the rural mask is not: a valid
    pixel of the urban mask always holds 1, and the pixel is valid exactly
    where it is urban; the rural mask is valid wherever both indices are,
    holding 1 on rural pixels and 0 on the others. *)
Theorem mask_pixel_values (n1 n2 : string) (v b : Raster) :
  exists um rm,
    UHI.urbanMask [(n2, b)] [(n1, v)] = Ok um /\
    UHI.ruralMask [(n1, v)] [(n2, b)] = Ok rm /\
    forall p,
      (forall x, pixelAt um n2 p = Some x -> x = 1) /\
      (pixelAt um n2 p <> None <-> keeps um p = true) /\
      (pixelAt rm n1 p = None <-> v p = None \/ b p = None) /\
      (forall x, pixelAt rm n1 p = Some x ->
         (x = 1 /\ keeps rm p = true) \/ (x = 0 /\ keeps rm p = false)).
Proof.
  do 2 eexists. split; [reflexivity|]. split; [reflexivity|].
  intros p. unfold ee.selfMask, ee.gt, ee.lt, ee.mapBands.
  cbn [List.map fst snd]. rewrite !pixelAt_single.
  cbn [keeps]. unfold ee.updateMaskRaster, ee.andRaster, ee.pointwise.
  destruct (v p) as [x|], (b p) as [y|]; cbn [option_map];
    rewrite ?ofBool_nonzero.
  - destruct (Qgtb y 0.1), (Qltb x 0.2), (Qgtb x 0.3), (Qltb y (-0.1));
      cbn; repeat split; intros; try congruence; try discriminate; try tauto;
      try (left; split; congruence); try (right; split; congruence);
      try (destruct H; discriminate).
  - cbn. repeat split; intros; try congruence; try discriminate; tauto.
  - cbn. repeat split; intros; try congruence; try discriminate; tauto.
  - cbn. repeat split; intros; try congruence; try discriminate; tauto.
Qed.

(** X11. The UHI raster exists exactly when the rural mean is a number: with
    a null rural mean the subtraction is rejected for its missing operand,
    and without the key 'LST' the lookup fails. *)
Theorem uhi_raster_needs_rural_mean
  (n k : string) (l m : Raster) (d : eeImage.Dictionary) :
  (isOk (UHI.uhiIntensity [(n, l)] [(k, m)] d) = true <->
   exists r, eeImage.get "LST" d = Ok (Some r)) /\
  (eeImage.get "LST" d = Ok None ->
   UHI.uhiIntensity [(n, l)] [(k, m)] d = Err (NullArgument "image2")) /\
  (lookup "LST" d = None ->
   UHI.uhiIntensity [(n, l)] [(k, m)] d = Err (KeyNotFound "LST")).
Proof.
  unfold UHI.uhiIntensity, ee.where_, ee.not, ee.binop, ee.mapBands.
  cbn [List.map fst snd bind].
  split; [|split].
  - destruct (eeImage.get "LST" d) as [[r|]|e]; cbn; split; intros H;
      try discriminate; try reflexivity; try (destruct H; discriminate); eauto.
  - intros ->. reflexivity.
  - intros H. unfold eeImage.get. rewrite H. reflexivity.
Qed.

(** X12. What the statistics panel shows.  With two numbers the callbacks add
    all eleven labels after the title and end normally.  When the urban mean
    is null or its computation failed, the panel stops after the heading
    'Average Urban LST:' with a TypeError, whatever the rural mean is.  When
    only the rural mean is missing, the urban temperature is still shown and
    the panel stops after the heading 'Average Rural LST:'.  The UHI label is
    therefore shown only when both means are numbers. *)
Theorem stats_panel_cases :
  (forall u r,
      UHI.statsPanel (Ok (Some u)) (Ok (Some r)) =
      ([ "URBAN HEAT ISLAND STATISTICS"; "Analysis Period:"; "2024-06-01 to 2024-09-30";
         UHI.separator; "Average Urban LST:"; JS.toFixedQ 2 u ++ " °C";
         "Average Rural LST:"; JS.toFixedQ 2 r ++ " °C"; UHI.separator;
         "UHI Intensity:"; JS.toFixedQ 2 (u - r) ++ " °C";
         "Urban areas are " ++ JS.toFixedQ 2 (u - r) ++ "°C warmer than rural areas"
       ]%string, inr tt)) /\
  (forall urban rural,
      (forall u, urban <> Ok (Some u)) ->
      exists e,
        UHI.statsPanel urban rural =
        ([ "URBAN HEAT ISLAND STATISTICS"; "Analysis Period:"; "2024-06-01 to 2024-09-30";
           UHI.separator; "Average Urban LST:" ]%string, inl e)) /\
  (forall u rural,
      (forall r, rural <> Ok (Some r)) ->
      exists e,
        UHI.statsPanel (Ok (Some u)) rural =
        ([ "URBAN HEAT ISLAND STATISTICS"; "Analysis Period:"; "2024-06-01 to 2024-09-30";
           UHI.separator; "Average Urban LST:"; JS.toFixedQ 2 u ++ " °C";
           "Average Rural LST:" ]%string, inl e)) /\
  (forall urban rural s,
      reportedUHI (UHI.statsPanel urban rural) = Some s ->
      exists u r, urban = Ok (Some u) /\ rural = Ok (Some r)).
Proof.
  split; [|split; [|split]].
  - intros u r. reflexivity.
  - intros urban rural H.
    destruct urban as [[u|]|e]; [exfalso; apply (H u); reflexivity| |];
      destruct rural as [[r|]|e']; eexists; reflexivity.
  - intros u rural H.
    destruct rural as [[r|]|e]; [exfalso; apply (H r); reflexivity| |];
      eexists; reflexivity.
  - intros urban rural s H.
    destruct urban as [[u|]|e]; destruct rural as [[r|]|e']; try discriminate.
    eauto.
Qed.

Lemma uhi_raster_pixel_shift (l m : Raster) (r : Q) (p : Pixel) :
  ee.updateMaskRaster
    (ee.pointwise (fun v => v - r)
       (ee.whereRaster 0 l (ee.pointwise (fun v => ofBool (negb (Qnonzero v))) m)))
    m p
  = option_map (fun v => v + - r) (ee.updateMaskRaster l m p).
Proof.
  unfold ee.updateMaskRaster, ee.pointwise, ee.whereRaster.
  destruct (m p) as [x|]; [|reflexivity]. cbn [option_map].
  destruct (Qnonzero x); [|reflexivity].
  cbn [negb ofBool]. rewrite Qnonzero_zero.
  destruct (l p); reflexivity.
Qed.

(** X13. The raster and the scalar agree: averaged over the boundary with
    the same reducer, the per-pixel UHI raster gives the urban mean minus the
    rural mean that was subtracted, null when the urban mean is null, and it
    fails the same way when the boundary exceeds the pixel cap. *)
Theorem uhi_raster_mean_is_scalar_uhi
  (l m : Raster) (k : string) (javaBounds : Geometry) (d : eeImage.Dictionary) (r : Q) :
  eeImage.get "LST" d = Ok (Some r) ->
  exists img,
    UHI.uhiIntensity [("LST"%string, l)] [(k, m)] d = Ok img /\
    shiftedBy (- r)
      (urbanMeanOf [("LST"%string, l)] [(k, m)] javaBounds)
      (dd <- eeImage.reduceRegion (UHI.regionArgs javaBounds) img ;;
       eeImage.get "UHI_Intensity" dd).
Proof.
  intros Hr.
  unfold UHI.uhiIntensity, ee.where_, ee.not, ee.binop, ee.mapBands.
  cbn [List.map fst snd bind]. rewrite Hr.
  unfold ee.subtract, ee.updateMask, ee.binop, ee.mapBands.
  cbn [List.map fst snd bind eeImage.Number ee.rename].
  eexists. split; [reflexivity|].
  unfold urbanMeanOf, UHI.urbanLST, UHI.urbanTemp. rewrite masked_mean_cases.
  destruct (Z.ltb_spec (10 ^ 13) (Z.of_nat (List.length javaBounds))) as [Over|Within].
  - rewrite reduceRegion_over by exact Over. reflexivity.
  - rewrite reduceRegion_within by exact Within.
    cbn [List.map fst snd bind eeImage.get lookup String.eqb Ascii.eqb Bool.eqb
           eeImage.geometry UHI.regionArgs].
    apply weightedMean_shift. intros p. apply uhi_raster_pixel_shift.
Qed.

Lemma uhi_raster_mean_is_scalar_uhi_witness :
  exists img x,
    UHI.uhiIntensity [("LST"%string, row (fun i => Some (inject_Z i)))]
      [("m"%string, row (fun i => if (i <? 2)%Z then None else Some 1))]
      [("LST"%string, Some 1)] = Ok img /\
    (dd <- eeImage.reduceRegion (UHI.regionArgs syntheticBounds) img ;;
     eeImage.get "UHI_Intensity" dd) = Ok (Some x) /\
    x == 3 # 2.
Proof.
  destruct (uhi_raster_mean_is_scalar_uhi
              (row (fun i => Some (inject_Z i)))
              (row (fun i => if (i <? 2)%Z then None else Some 1))
              "m"%string syntheticBounds [("LST"%string, Some 1)] 1 eq_refl)
    as (img & Hi & _).
  exists img. injection Hi as <-.
  eexists. split; [reflexivity|]. split; vm_compute; reflexivity.
Defined.

(** ** Normalized differences *)

Lemma Qltb_scale (x c : Q) : 0 < c -> Qltb (x * c) 0 = Qltb x 0.
Proof.
  intros P.
  destruct (Qltb x 0) eqn:E.
  - apply Qltb_true in E. apply Qltb_true.
    assert (H : x * c < 0 * c) by (apply Qmult_lt_compat_r; assumption). lra.
  - apply Qltb_false in E. apply Qltb_false.
    assert (H : 0 * c <= x * c) by (apply Qmult_le_compat_r; lra). lra.
Qed.

Lemma Qeq_bool_scale (s c : Q) : 0 < c -> Qeq_bool (s * c) 0 = Qeq_bool s 0.
Proof.
  intros P.
  destruct (Qeq_bool s 0) eqn:E.
  - apply Qeq_bool_iff in E. apply Qeq_bool_iff. rewrite E. ring.
  - apply Qeq_bool_neq in E.
    destruct (Qeq_bool (s * c) 0) eqn:F; [|reflexivity].
    apply Qeq_bool_iff in F. exfalso. apply E.
    apply (Qmult_integral_l c); [lra|]. rewrite Qmult_comm. exact F.
Qed.

Lemma ndRaster_scale (a b : Raster) (c : Q) (p : Pixel) :
  0 < c ->
  oQeq
    (eeImage.ndRaster (ee.pointwise (fun v => v * c) a) (ee.pointwise (fun v => v * c) b) p)
    (eeImage.ndRaster a b p).
Proof.
  intros P. unfold eeImage.ndRaster, ee.pointwise.
  destruct (a p) as [x|]; [|exact I].
  destruct (b p) as [y|]; [|exact I].
  cbn [option_map]. rewrite !(Qltb_scale _ c P).
  destruct (Qltb x 0 || Qltb y 0)%bool; [exact I|].
  assert (E : Qeq_bool (x * c + y * c) 0 = Qeq_bool (x + y) 0).
  { rewrite <- (Qeq_bool_scale (x + y) c P).
    destruct (Qeq_bool (x * c + y * c) 0) eqn:A, (Qeq_bool ((x + y) * c) 0) eqn:B;
      try reflexivity.
    - apply Qeq_bool_iff in A. apply Qeq_bool_neq in B. exfalso. apply B. rewrite <- A. ring.
    - apply Qeq_bool_neq in A. apply Qeq_bool_iff in B. exfalso. apply A. rewrite <- B. ring. }
  rewrite E. destruct (Qeq_bool (x + y) 0) eqn:Z; [exact I|].
  apply Qeq_bool_neq in Z. apply Qeq_bool_neq in E.
  unfold oQeq. field. split; [exact Z|exact E].
Qed.

Lemma lookup_mapBands (f : Raster -> Raster) (name : string) (img : Image) :
  lookup name (ee.mapBands f img) = option_map f (lookup name img).
Proof.
  unfold ee.mapBands. induction img as [|[k r] img IH]; [reflexivity|].
  cbn [List.map lookup fst snd]. destruct (String.eqb name k); [reflexivity|exact IH].
Qed.

(** X14. The indices do not depend on the unit of the reflectance bands:
    multiplying every band of the median composite by the same positive
    factor leaves NDVI and NDBI unchanged at every pixel, and the indices
    fail for the scaled composite exactly when they fail for the original
    one.  (The script reads the bands as stored, without rescaling them.) *)
Theorem indices_scale_invariant (med : Image) (c : Q) :
  0 < c ->
  match UHI.ndvi (ee.multiply c med), UHI.ndvi med with
  | Ok scaled, Ok plain => forall p, oQeq (pixelAt scaled "NDVI" p) (pixelAt plain "NDVI" p)
  | Err e, Err e' => e = e'
  | _, _ => False
  end /\
  match UHI.ndbi (ee.multiply c med), UHI.ndbi med with
  | Ok scaled, Ok plain => forall p, oQeq (pixelAt scaled "NDBI" p) (pixelAt plain "NDBI" p)
  | Err e, Err e' => e = e'
  | _, _ => False
  end.
Proof.
  intros P.
  unfold UHI.ndvi, UHI.ndbi, eeImage.normalizedDifference, ee.multiply.
  rewrite !lookup_mapBands.
  destruct (lookup "SR_B4" med) as [red|], (lookup "SR_B5" med) as [nir|],
    (lookup "SR_B6" med) as [swir|]; cbn [option_map bind ee.rename];
    split; try reflexivity; intros p; rewrite !pixelAt_single;
    apply ndRaster_scale; exact P.
Qed.

Lemma indices_scale_invariant_witness :
  oQeq (pixelOf (UHI.ndvi (ee.multiply (275 # 10000000) (bands syntheticScene))) "NDVI" (px 2))
    (pixelOf (UHI.ndvi (bands syntheticScene)) "NDVI" (px 2)).
Proof.
  assert (P : 0 < 275 # 10000000) by reflexivity.
  destruct (indices_scale_invariant (bands syntheticScene) (275 # 10000000) P) as [H _].
  exact (H (px 2)).
Defined.

(** ** Order of the scenes *)

Lemma filter_permutation {A : Type} (keep : A -> bool) (l l' : list A) :
  Permutation l l' -> Permutation (filter keep l) (filter keep l').
Proof.
  intros P. induction P as [|a u w _ IHuw|a b u|u v w _ IHuv _ IHvw].
  - apply Permutation_refl.
  - cbn [filter]. destruct (keep a).
    + apply perm_skip. exact IHuw.
    + exact IHuw.
  - cbn [filter]. destruct (keep a), (keep b).
    + apply perm_swap.
    + apply Permutation_refl.
    + apply Permutation_refl.
    + apply Permutation_refl.
  - exact (Permutation_trans IHuv IHvw).
Qed.

Lemma landsat_permutation (A B : list Scene) (javaBounds : Geometry) :
  Permutation (UHI.landsat A B javaBounds) (UHI.landsat B A javaBounds).
Proof.
  unfold UHI.landsat, ImageCollection.filterCloudCoverLt, ImageCollection.filterDate,
    ImageCollection.filterBounds, ImageCollection.merge.
  do 3 apply filter_permutation. apply Permutation_app_comm.
Qed.

Lemma Qsum_permutation (l l' : list Q) : Permutation l l' -> Qsum l == Qsum l'.
Proof.
  induction 1 as [|x l l' _ IH|x y l|l l' l'' _ IH1 _ IH2]; cbn [Qsum].
  - reflexivity.
  - rewrite IH. reflexivity.
  - ring.
  - rewrite IH1. exact IH2.
Qed.

Lemma meanReducer_permutation (l l' : list Q) :
  Permutation l l' -> oQeq (meanReducer l) (meanReducer l').
Proof.
  intros P. pose proof (Qsum_permutation l l' P) as S.
  pose proof (Permutation_length P) as L.
  destruct l as [|x l], l' as [|x' l']; try discriminate; [exact I|].
  cbn [meanReducer oQeq]. unfold Qlen. rewrite S, L. reflexivity.
Qed.

Lemma Forall2_Qeq_refl (l : list Q) : Forall2 Qeq l l.
Proof. induction l; constructor; [reflexivity|assumption]. Qed.

Lemma Forall2_Qeq_trans (a b c : list Q) :
  Forall2 Qeq a b -> Forall2 Qeq b c -> Forall2 Qeq a c.
Proof.
  intros H. revert c. induction H as [|x y a b E _ IH]; intros c H'.
  - inversion H'. constructor.
  - inversion H' as [|y' z b' c' E' T]; subst. constructor.
    + rewrite E. exact E'.
    + apply IH. exact T.
Qed.

Lemma Qle_bool_false (x y : Q) : Qle_bool x y = false -> y < x.
Proof.
  intros H. apply Qnot_le_lt. intros L. apply Qle_bool_iff in L. congruence.
Qed.

Ltac qle_props :=
  repeat match goal with
    | H : Qle_bool _ _ = true |- _ => apply Qle_bool_iff in H
    | H : Qle_bool _ _ = false |- _ => apply Qle_bool_false in H
    end.

Lemma insertSorted_comp (x x' : Q) (s s' : list Q) :
  x == x' -> Forall2 Qeq s s' ->
  Forall2 Qeq (insertSorted x s) (insertSorted x' s').
Proof.
  intros E H. induction H as [|y y' s s' Ey Hs IH]; cbn [insertSorted].
  - constructor; [exact E|constructor].
  - rewrite (Qleb_comp x x' E y y' Ey).
    destruct (Qle_bool x' y'); constructor; try assumption.
    constructor; assumption.
Qed.

Lemma insertSorted_swap (x y : Q) (s : list Q) :
  Forall2 Qeq (insertSorted x (insertSorted y s)) (insertSorted y (insertSorted x s)).
Proof.
  induction s as [|z s IH].
  - cbn [insertSorted].
    destruct (Qle_bool x y) eqn:Xy, (Qle_bool y x) eqn:Yx; qle_props;
      first [ exfalso; lra
            | repeat (constructor; [lra|]); constructor ].
  - destruct (Qle_bool x z) eqn:Xz, (Qle_bool y z) eqn:Yz,
      (Qle_bool x y) eqn:Xy, (Qle_bool y x) eqn:Yx;
      cbn [insertSorted]; rewrite ?Xz, ?Yz, ?Xy, ?Yx;
      cbn [insertSorted]; rewrite ?Xz, ?Yz, ?Xy, ?Yx;
      qle_props;
      first [ exfalso; lra
            | repeat (constructor; [lra|]);
              first [ apply Forall2_Qeq_refl | exact IH ] ].
Qed.

Lemma sortQ_permutation (l l' : list Q) :
  Permutation l l' -> Forall2 Qeq (sortQ l) (sortQ l').
Proof.
  unfold sortQ.
  induction 1 as [|x l l' _ IH|x y l|l l' l'' _ IH1 _ IH2]; cbn [fold_right].
  - constructor.
  - apply insertSorted_comp; [reflexivity|exact IH].
  - apply insertSorted_swap.
  - apply (Forall2_Qeq_trans _ _ _ IH1 IH2).
Qed.

Lemma nth_Forall2_Qeq (k : nat) (s s' : list Q) :
  Forall2 Qeq s s' -> nth k s 0 == nth k s' 0.
Proof.
  intros H. revert k. induction H as [|x y s s' E _ IH]; intros [|k]; cbn [nth];
    try reflexivity; [exact E|apply IH].
Qed.

Lemma medianReducer_permutation (l l' : list Q) :
  Permutation l l' -> oQeq (medianReducer l) (medianReducer l').
Proof.
  intros P. pose proof (sortQ_permutation l l' P) as S.
  pose proof (Forall2_length S) as L.
  pose proof (Permutation_length P) as L'.
  destruct l as [|x l], l' as [|x' l']; try discriminate; [exact I|].
  unfold medianReducer. rewrite <- L.
  destruct (Nat.even (List.length (sortQ (x :: l)))); unfold oQeq.
  - rewrite (nth_Forall2_Qeq _ _ _ S), (nth_Forall2_Qeq (_ / 2) _ _ S). reflexivity.
  - apply nth_Forall2_Qeq. exact S.
Qed.

Lemma sceneLSTs_permutation (scenes scenes' : list Scene) (p : Pixel) :
  Permutation scenes scenes' -> Permutation (sceneLSTs scenes p) (sceneLSTs scenes' p).
Proof. intros P. unfold sceneLSTs. apply Permutation_flat_map. exact P. Qed.

Lemma bandValues_permutation (b : string) (scenes scenes' : list Scene) (p : Pixel) :
  Permutation scenes scenes' -> Permutation (bandValues b scenes p) (bandValues b scenes' p).
Proof.
  intros P. unfold bandValues, ImageCollection.valuesAt.
  apply Permutation_flat_map. apply Permutation_map. exact P.
Qed.

Lemma forallb_permutation {A : Type} (f : A -> bool) (l l' : list A) :
  Permutation l l' -> forallb f l = true -> forallb f l' = true.
Proof.
  intros P H. rewrite forallb_forall in *. intros x Hx.
  apply H. apply (Permutation_in x (Permutation_sym P) Hx).
Qed.

Lemma ndRaster_comp (a b a' b' : Raster) (p : Pixel) :
  oQeq (a p) (a' p) -> oQeq (b p) (b' p) ->
  oQeq (eeImage.ndRaster a b p) (eeImage.ndRaster a' b' p).
Proof.
  unfold eeImage.ndRaster, oQeq.
  destruct (a p) as [x|], (a' p) as [x'|]; try contradiction; try (intros; exact I).
  destruct (b p) as [y|], (b' p) as [y'|]; try contradiction; try (intros; exact I).
  intros Ex Ey.
  rewrite (Qltb_comp x x' 0 Ex), (Qltb_comp y y' 0 Ey).
  destruct (Qltb x' 0 || Qltb y' 0)%bool; [exact I|].
  assert (E : Qeq_bool (x + y) 0 = Qeq_bool (x' + y') 0).
  { destruct (Qeq_bool (x + y) 0) eqn:A, (Qeq_bool (x' + y') 0) eqn:B; try reflexivity.
    - apply Qeq_bool_iff in A. apply Qeq_bool_neq in B. exfalso. apply B.
      rewrite <- Ex, <- Ey. exact A.
    - apply Qeq_bool_neq in A. apply Qeq_bool_iff in B. exfalso. apply A.
      rewrite Ex, Ey. exact B. }
  rewrite E. destruct (Qeq_bool (x' + y') 0); [exact I|].
  rewrite Ex, Ey. reflexivity.
Qed.

(** X15. Neither composite depends on the order in which the two archives
    are merged: for scenes with the Landsat band layout, swapping the
    archives gives the same LST composite and the same NDVI and NDBI at every
    pixel, and the indices fail for one order exactly when they fail for the
    other. *)
Theorem archive_order_irrelevant (LC08 LC09 : list Scene) (javaBounds : Geometry) :
  forallb wellFormed (Run.landsat LC08 LC09 javaBounds) = true ->
  (exists l l',
      Run.lstMean LC08 LC09 javaBounds = Ok l /\
      Run.lstMean LC09 LC08 javaBounds = Ok l' /\
      forall p, oQeq (pixelAt l "LST" p) (pixelAt l' "LST" p)) /\
  (forall p,
      oQeq (pixelOf (Run.ndvi LC08 LC09 javaBounds) "NDVI" p)
        (pixelOf (Run.ndvi LC09 LC08 javaBounds) "NDVI" p) /\
      oQeq (pixelOf (Run.ndbi LC08 LC09 javaBounds) "NDBI" p)
        (pixelOf (Run.ndbi LC09 LC08 javaBounds) "NDBI" p)) /\
  isOk (Run.ndvi LC08 LC09 javaBounds) = isOk (Run.ndvi LC09 LC08 javaBounds) /\
  isOk (Run.ndbi LC08 LC09 javaBounds) = isOk (Run.ndbi LC09 LC08 javaBounds).
Proof.
  intros W.
  pose proof (landsat_permutation LC08 LC09 javaBounds) as P.
  fold (Run.landsat LC08 LC09 javaBounds) in P.
  fold (Run.landsat LC09 LC08 javaBounds) in P.
  pose proof (forallb_permutation _ _ _ P W) as W'.
  split.
  - destruct (lstMean_composite _ javaBounds W) as (l & Hl & _ & _ & Hp).
    destruct (lstMean_composite _ javaBounds W') as (l' & Hl' & _ & _ & Hp').
    exists l, l'. split; [exact Hl|]. split; [exact Hl'|].
    intros p. rewrite Hp, Hp'.
    destruct (covers javaBounds p); [|exact I].
    apply meanReducer_permutation. apply sceneLSTs_permutation. exact P.
  - destruct (Run.landsat LC08 LC09 javaBounds) as [|s scenes] eqn:E.
    + apply Permutation_nil in P.
      unfold Run.ndvi, Run.ndbi, Run.median. rewrite E, P.
      split; [|split; reflexivity]. intros p. split; exact I.
    + assert (NE : s :: scenes <> []) by discriminate.
      assert (NE' : Run.landsat LC09 LC08 javaBounds <> []).
      { intros Z. rewrite Z in P. apply Permutation_sym, Permutation_nil in P.
        discriminate. }
      destruct (indices_on_median _ W NE) as [Hv Hb].
      destruct (indices_on_median _ W' NE') as [Hv' Hb'].
      unfold Run.ndvi, Run.ndbi, Run.median. rewrite E, Hv, Hb, Hv', Hb'.
      split; [|split; reflexivity].
      intros p. cbn [pixelOf]. rewrite !pixelAt_single.
      split; apply ndRaster_comp; apply medianReducer_permutation;
        apply bandValues_permutation; exact P.
Qed.

Lemma archive_order_irrelevant_witness :
  oQeq (pixelOf (Run.ndvi [onePixelScene 20 10 1] [onePixelScene 22 20 2; onePixelScene 36 90 3]
                   [(px 0, 1)]) "NDVI" (px 0))
    (pixelOf (Run.ndvi [onePixelScene 22 20 2; onePixelScene 36 90 3] [onePixelScene 20 10 1]
                [(px 0, 1)]) "NDVI" (px 0)).
Proof.
  assert (W : forallb wellFormed
                (Run.landsat [onePixelScene 20 10 1]
                   [onePixelScene 22 20 2; onePixelScene 36 90 3] [(px 0, 1)]) = true)
    by (vm_compute; reflexivity).
  destruct (archive_order_irrelevant _ _ _ W) as (_ & H & _).
  destruct (H (px 0)) as [Hv _]. exact Hv.
Defined.

(** ** Failure of the LST path *)

Lemma calculateLST_isOk (image : Image) :
  isOk (UHI.calculateLST image) = ee.hasBand "ST_B10" image.
Proof.
  unfold UHI.calculateLST, ee.select, ee.hasBand.
  destruct (lookup "ST_B10" image); reflexivity.
Qed.

Lemma calculateLST_error (image : Image) (e : EEError) :
  UHI.calculateLST image = Err e -> e = BandNotFound "ST_B10".
Proof.
  unfold UHI.calculateLST, ee.select.
  destruct (lookup "ST_B10" image); cbn [bind]; intros H; [discriminate|].
  injection H as <-. reflexivity.
Qed.

(** X16. [landsat.map(calculateLST)] succeeds exactly when every qualifying
    scene has a band 'ST_B10'; a single scene without it makes the whole
    collection fail, always with the error that the band was not found, and
    on success there is one image per scene. *)
Theorem lstCollection_all_or_nothing (landsat : list Scene) :
  (isOk (UHI.lstCollection landsat) = true <->
   forall s, In s landsat -> ee.hasBand "ST_B10" (bands s) = true) /\
  (forall e, UHI.lstCollection landsat = Err e -> e = BandNotFound "ST_B10") /\
  (forall col, UHI.lstCollection landsat = Ok col ->
     List.length col = List.length landsat).
Proof.
  unfold UHI.lstCollection.
  induction landsat as [|s landsat (IH1 & IH2 & IH3)]; cbn [List.map mapM].
  - split; [|split].
    + split; [intros _ s []|reflexivity].
    + discriminate.
    + intros col H. injection H as <-. reflexivity.
  - pose proof (calculateLST_isOk (bands s)) as K.
    destruct (UHI.calculateLST (bands s)) as [img|e0] eqn:C; cbn [bind isOk] in *.
    + destruct (mapM UHI.calculateLST (List.map bands landsat)) as [col|e1];
        cbn [bind isOk] in *.
      * split; [|split].
        -- split; [|reflexivity]. intros _ x [<-|Hx]; [symmetry; exact K|].
           apply IH1; [reflexivity|exact Hx].
        -- discriminate.
        -- intros col' H. injection H as <-. cbn [List.length].
           rewrite (IH3 col eq_refl). reflexivity.
      * split; [|split].
        -- split; [discriminate|]. intros H.
           apply IH1. intros x Hx. apply H. right. exact Hx.
        -- intros e H. injection H as <-. apply IH2. reflexivity.
        -- discriminate.
    + split; [|split].
      * split; [discriminate|]. intros H.
        rewrite (H s (or_introl eq_refl)) in K. discriminate.
      * intros e H. injection H as <-. apply (calculateLST_error _ _ C).
      * discriminate.
Qed.

(** ** Clipping *)

Lemma pixelAt_mapBands (f : Raster -> Raster) (img : Image) (b : string) (p : Pixel) :
  (forall r, f r p = None) -> pixelAt (ee.mapBands f img) b p = None.
Proof.
  intros H. unfold pixelAt. rewrite lookup_mapBands.
  destruct (lookup b img); [apply H|reflexivity].
Qed.

Lemma lstMean_clipped (col : list Image) (javaBounds : Geometry) (l : Image)
  (b : string) (p : Pixel) :
  UHI.lstMean col javaBounds = Ok l ->
  covers javaBounds p = false ->
  pixelAt l b p = None.
Proof.
  unfold UHI.lstMean.
  destruct (ImageCollection.select "LST" col) as [col'|]; [|discriminate].
  cbn [bind]. intros H C. injection H as <-.
  unfold ee.clip. apply pixelAt_mapBands. intros r. rewrite C. reflexivity.
Qed.

Lemma masked_outside (l m : Image) (img : Image) (b : string) (p : Pixel) :
  ee.updateMask l m = Ok img ->
  (exists k r, m = [(k, r)]) ->
  (forall c, pixelAt l c p = None) ->
  pixelAt img b p = None.
Proof.
  intros H (k & r & ->) N. unfold ee.updateMask, ee.binop in H. injection H as <-.
  unfold pixelAt. rewrite lookup_mapBands.
  specialize (N b). unfold pixelAt in N.
  destruct (lookup b l) as [x|]; [|reflexivity].
  cbn [option_map]. unfold ee.updateMaskRaster. rewrite N.
  destruct (r p) as [y|]; [destruct (Qnonzero y)|]; reflexivity.
Qed.

Lemma ruralMask_shape (nb nv rm : Image) (med : Image) :
  UHI.ndbi med = Ok nb -> UHI.ndvi med = Ok nv -> UHI.ruralMask nv nb = Ok rm ->
  exists m, rm = [("NDVI"%string, m)].
Proof.
  intros Hb Hv.
  destruct (ndvi_shape _ _ Hv) as (nir & red & _ & _ & ->).
  destruct (ndbi_shape _ _ Hb) as (swir & nir' & _ & _ & ->).
  intros H. injection H as <-. eexists. reflexivity.
Qed.

(** X17. No temperature raster of the script holds data outside the Java
    boundary: at a pixel the boundary does not cover, the LST composite, the
    urban and the rural LST and the UHI raster are all no-data, for every
    input. *)
Theorem temperature_rasters_clipped
  (LC08 LC09 : list Scene) (javaBounds : Geometry) (p : Pixel) :
  covers javaBounds p = false ->
  pixelOf (Run.lstMean LC08 LC09 javaBounds) "LST" p = None /\
  pixelOf (Run.urbanLST LC08 LC09 javaBounds) "LST" p = None /\
  pixelOf (Run.ruralLST LC08 LC09 javaBounds) "LST" p = None /\
  pixelOf (Run.uhiIntensity LC08 LC09 javaBounds) "UHI_Intensity" p = None.
Proof.
  intros C.
  unfold Run.urbanLST, Run.ruralLST, Run.uhiIntensity.
  destruct (Run.lstMean LC08 LC09 javaBounds) as [l|e] eqn:HL; cbn [bind pixelOf];
    [|repeat split; reflexivity].
  assert (N : forall c, pixelAt l c p = None).
  { intros c. unfold Run.lstMean in HL.
    destruct (Run.lstCollection LC08 LC09 javaBounds) as [col|]; [|discriminate].
    apply (lstMean_clipped col javaBounds l c p HL C). }
  assert (S : l = [] \/ exists r, l = [("LST"%string, r)]).
  { unfold Run.lstMean in HL.
    destruct (Run.lstCollection LC08 LC09 javaBounds) as [col|]; [|discriminate].
    apply (lstMean_shape col javaBounds l HL). }
  split; [apply N|].
  split; [|split].
  - destruct (Run.urbanMask LC08 LC09 javaBounds) as [um|] eqn:HM; [|reflexivity].
    cbn [bind]. unfold UHI.urbanLST.
    destruct (ee.updateMask l um) as [img|] eqn:HU; [|reflexivity].
    cbn [pixelOf]. apply (masked_outside l um img _ p HU); [|exact N].
    unfold Run.urbanMask in HM.
    destruct (Run.ndbi LC08 LC09 javaBounds) as [nb|] eqn:Hb; [|discriminate].
    destruct (Run.ndvi LC08 LC09 javaBounds) as [nv|] eqn:Hv; [|discriminate].
    destruct (urbanMask_shape nb nv um _ Hb Hv HM) as (m & ->). eauto.
  - destruct (Run.ruralMask LC08 LC09 javaBounds) as [rm|] eqn:HM; [|reflexivity].
    cbn [bind]. unfold UHI.ruralLST.
    destruct (ee.updateMask l rm) as [img|] eqn:HU; [|reflexivity].
    cbn [pixelOf]. apply (masked_outside l rm img _ p HU); [|exact N].
    unfold Run.ruralMask in HM.
    destruct (Run.ndvi LC08 LC09 javaBounds) as [nv|] eqn:Hv; [|discriminate].
    destruct (Run.ndbi LC08 LC09 javaBounds) as [nb|] eqn:Hb; [|discriminate].
    destruct (ruralMask_shape nb nv rm _ Hb Hv HM) as (m & ->). eauto.
  - destruct (Run.urbanMask LC08 LC09 javaBounds) as [um|] eqn:HM; [|reflexivity].
    cbn [bind].
    destruct (Run.ruralTemp LC08 LC09 javaBounds) as [d|]; [|reflexivity].
    cbn [bind].
    assert (SM : exists m, um = [("NDBI"%string, m)]).
    { unfold Run.urbanMask in HM.
      destruct (Run.ndbi LC08 LC09 javaBounds) as [nb|] eqn:Hb; [|discriminate].
      destruct (Run.ndvi LC08 LC09 javaBounds) as [nv|] eqn:Hv; [|discriminate].
      apply (urbanMask_shape nb nv um _ Hb Hv HM). }
    destruct SM as (m & ->).
    destruct S as [->|(r & ->)].
    + unfold UHI.uhiIntensity, ee.where_, ee.binop, ee.not, ee.mapBands.
      cbn [List.map bind].
      destruct (eeImage.get "LST" d) as [[rmean|]|e]; reflexivity.
    + rewrite uhiIntensity_single.
      specialize (N "LST"%string). rewrite pixelAt_single in N. rewrite N.
      destruct (keeps _ p); reflexivity.
Qed.

Lemma temperature_rasters_clipped_witness :
  pixelOf (Run.lstMean [syntheticScene] [] [(px 0, 1); (px 1, 1)]) "LST" (px 2) = None /\
  pixelOf (Run.ruralLST [syntheticScene] [] [(px 0, 1); (px 1, 1)]) "LST" (px 2) = None.
Proof.
  destruct (temperature_rasters_clipped [syntheticScene] [] [(px 0, 1); (px 1, 1)] (px 2)
              eq_refl) as (A & _ & B & _).
  split; [exact A|exact B].
Defined.

(** ** The boundary collection *)

(** X18. [java] holds exactly the features of the table whose country is
    'Indonesia' and whose province name is one of the six listed names,
    compared as exact strings, in the order of the table. *)
Theorem java_membership (table : list Boundary.Feature) :
  (forall f,
      In f (Boundary.java table) <->
      In f table /\
      Boundary.ADM0_NAME f = "Indonesia"%string /\
      In (Boundary.ADM1_NAME f) Boundary.provinces) /\
  (forall t1 t2, Boundary.java (t1 ++ t2) = Boundary.java t1 ++ Boundary.java t2) /\
  Boundary.java (Boundary.java table) = Boundary.java table.
Proof.
  assert (M : forall f,
             In f (Boundary.java table) <->
             In f table /\
             Boundary.ADM0_NAME f = "Indonesia"%string /\
             In (Boundary.ADM1_NAME f) Boundary.provinces).
  { intros f. unfold Boundary.java, Boundary.inList.
    rewrite !filter_In, existsb_exists, String.eqb_eq.
    split.
    - intros ((Hf & H0) & (x & Hx & E)). apply String.eqb_eq in E. subst x. auto.
    - intros (Hf & H0 & H1). split; [auto|].
      exists (Boundary.ADM1_NAME f). split; [exact H1|apply String.eqb_refl]. }
  split; [exact M|]. clear M. split.
  - intros t1 t2. unfold Boundary.java. rewrite !filter_app. reflexivity.
  - unfold Boundary.java.
    set (c := fun f => String.eqb (Boundary.ADM0_NAME f) "Indonesia").
    set (q := fun f => Boundary.inList Boundary.provinces (Boundary.ADM1_NAME f)).
    induction table as [|f table IH]; [reflexivity|].
    cbn [filter]. destruct (c f) eqn:Cf; cbn [filter]; [|exact IH].
    destruct (q f) eqn:Qf; cbn [filter]; [|exact IH].
    rewrite Cf. cbn [filter]. rewrite Qf. f_equal. exact IH.
Qed.

